(** * Profile manager: identity merge, persistence and sign-in

    A shallow embedding of [components/profiles/src/ProfileManagerImpl.cpp]
    and the properties of its profile store, its persisted document and its
    sign-in chain.

    Conventions of the embedding:
    - [size_t] values are integers in [0, 2^w) where [w] is 32 or 64
      according to the build target; every arithmetic result is wrapped
      explicitly;
    - a [std::string] is a [string], which may hold any character; where
      the strings of an identifier pass through [const char*] (the pair made
      from rapidjson's [GetString()] when a document is loaded, [c_str()]
      when it is written) only the characters before the first NUL get
      through: [c_str] below; display names, tile URIs and messages are
      handed on as they are;
    - [m_profiles] is a finite map keyed by the 32-bit fingerprint and is
      iterated in ascending key order;
    - rapidjson's text reader and writer are outside the component: the
      document tree is the interface to them. *)

From stdpp Require Import gmap strings list fin_maps sorting.
From Stdlib Require Import ZArith Lia DecimalString.

Local Open Scope Z_scope.
Set Warnings "-register-all".

Module Import ProfileManager.

(** ** Machine integers *)

Inductive arch := X86 | X64.

Definition size_t_bits (a : arch) : Z :=
  match a with X86 => 32 | X64 => 64 end.

Definition UINT32_MAX : Z := 4294967295.

Definition size_t_wrap (a : arch) (x : Z) : Z := x mod 2 ^ size_t_bits a.

Definition uint32_wrap (x : Z) : Z := x mod 2 ^ 32.

(** ** Strings *)

(** The characters a [const char*] view of a [std::string] exposes: those
    before the first NUL. *)
Fixpoint c_str (s : string) : string :=
  match s with
  | EmptyString => EmptyString
  | String c s' => if Ascii.eqb c Ascii.zero then EmptyString else String c (c_str s')
  end.

Fixpoint nul_free (s : string) : bool :=
  match s with
  | EmptyString => true
  | String c s' => negb (Ascii.eqb c Ascii.zero) && nul_free s'
  end.

(** ** Profiles *)

Definition ProfileIdentifier : Type := string * string.

(** An identifier after both of its strings went through [const char*]. *)
Definition cut_identifier (identifier : ProfileIdentifier) : ProfileIdentifier :=
  (c_str identifier.1, c_str identifier.2).

Record ProfileImpl := {
  GetDisplayName : string;
  GetTileURI : string;
  GetIdentifiers : list ProfileIdentifier;
  IsSuggestion : bool;
  GetInternalIdentifier : Z
}.

Definition GetNumIdentifiers (p : ProfileImpl) : nat := length (GetIdentifiers p).

Definition GetIdentifierInternal (p : ProfileImpl) (i : nat) : option ProfileIdentifier :=
  GetIdentifiers p !! i.

Definition SetDisplayName (name : string) (p : ProfileImpl) : ProfileImpl :=
  {| GetDisplayName := name; GetTileURI := GetTileURI p;
     GetIdentifiers := GetIdentifiers p; IsSuggestion := IsSuggestion p;
     GetInternalIdentifier := GetInternalIdentifier p |}.

Definition SetTileURI (uri : string) (p : ProfileImpl) : ProfileImpl :=
  {| GetDisplayName := GetDisplayName p; GetTileURI := uri;
     GetIdentifiers := GetIdentifiers p; IsSuggestion := IsSuggestion p;
     GetInternalIdentifier := GetInternalIdentifier p |}.

Definition SetIdentifiers (identifiers : list ProfileIdentifier) (p : ProfileImpl) : ProfileImpl :=
  {| GetDisplayName := GetDisplayName p; GetTileURI := GetTileURI p;
     GetIdentifiers := identifiers; IsSuggestion := IsSuggestion p;
     GetInternalIdentifier := GetInternalIdentifier p |}.

Definition SetIsSuggestion (b : bool) (p : ProfileImpl) : ProfileImpl :=
  {| GetDisplayName := GetDisplayName p; GetTileURI := GetTileURI p;
     GetIdentifiers := GetIdentifiers p; IsSuggestion := b;
     GetInternalIdentifier := GetInternalIdentifier p |}.

(** Modelled from the spec: the declaration of [ProfileImpl] (in
    ProfileManagerImpl.h) is not among the sources; the spec gives the
    fingerprint as a [uint32], so the [size_t] argument is converted to 32
    bits when it is stored. *)
Definition SetInternalIdentifier (hashKey : Z) (p : ProfileImpl) : ProfileImpl :=
  {| GetDisplayName := GetDisplayName p; GetTileURI := GetTileURI p;
     GetIdentifiers := GetIdentifiers p; IsSuggestion := IsSuggestion p;
     GetInternalIdentifier := uint32_wrap hashKey |}.

(** Modelled from the spec: the constructor of [ProfileImpl] is declared in
    the missing header; a profile is a suggestion only when a suggestion
    provider supplied it, so a fresh profile is not one. *)
Definition new_ProfileImpl : ProfileImpl :=
  {| GetDisplayName := ""; GetTileURI := ""; GetIdentifiers := [];
     IsSuggestion := false; GetInternalIdentifier := 0 |}.

(** ** The profile map and its iteration order *)

Definition key_le (x y : Z * ProfileImpl) : Prop := x.1 ≤ y.1.

#[global] Instance key_le_dec (x y : Z * ProfileImpl) : Decision (key_le x y) :=
  Z_le_dec x.1 y.1.

#[global] Instance key_le_total : Total key_le.
Proof. intros x y. unfold key_le. lia. Qed.

#[global] Instance key_le_trans : Transitive key_le.
Proof. intros x y z. unfold key_le. lia. Qed.

(** [for (auto&& profile : m_profiles)].
    Modelled from the spec: the container type of [m_profiles] is declared
    in the missing header; the spec has a mapping from fingerprint to
    profile, taken here as the ordered map of the standard library, whose
    iteration ascends in the key. *)
Definition map_iter (m : gmap Z ProfileImpl) : list (Z * ProfileImpl) :=
  merge_sort key_le (map_to_list m).

(** ** Fingerprints *)

Section Model.

Variable target : arch.

(** [std::hash<ProfileIdentifier>] is specialised in a header that is not
    among the sources: any function will do, its value is a [size_t]. *)
Variable hash_value : ProfileIdentifier → Z.

Definition std_hash (identifier : ProfileIdentifier) : Z :=
  size_t_wrap target (hash_value identifier).

(** [hashKey ^= 3 * std::hash<ProfileIdentifier>()(identifier)] *)
Definition hash_step (hashKey : Z) (identifier : ProfileIdentifier) : Z :=
  Z.lxor hashKey (size_t_wrap target (3 * std_hash identifier)).

(** The fingerprint as the specification words it: the XOR over the
    identifiers of three times the content hash, masked to 32 bits. *)
Definition fingerprint (identifiers : list ProfileIdentifier) : Z :=
  Z.land (foldr (λ identifier acc, Z.lxor (3 * std_hash identifier) acc) 0 identifiers)
         UINT32_MAX.

(** ** The profile manager *)

Inductive ProfileIdentityResult :=
| IdentitySucceeded (tokenType token : string)
| IdentityFailed (error : string).

(** An identity provider is an external component: its answer may change
    from one call to the next, so [ProcessIdentity] also receives the number
    of identifiers the running sign-in has resolved before the call. *)
Record ProfileIdentityProvider := {
  GetIdentifierKey : string;
  ProcessIdentity : nat → ProfileImpl → gmap string string → ProfileIdentityResult
}.

Record ProfileManagerImpl := {
  m_identityProviders : gmap string ProfileIdentityProvider;
  m_profiles : gmap Z ProfileImpl;
  m_profileIndices : list Z
}.

Definition new_ProfileManagerImpl : ProfileManagerImpl :=
  {| m_identityProviders := ∅; m_profiles := ∅; m_profileIndices := [] |}.

(** [m_profiles[hashKey] = profile; m_profileIndices.push_back(hashKey);]
    Modelled from the spec: the key type of [m_profiles] is declared in the
    missing header; the spec has the store keyed by the 32-bit fingerprint. *)
Definition store_profile (hashKey : Z) (profile : ProfileImpl)
    (st : ProfileManagerImpl) : ProfileManagerImpl :=
  {| m_identityProviders := m_identityProviders st;
     m_profiles := <[uint32_wrap hashKey := profile]> (m_profiles st);
     m_profileIndices := m_profileIndices st ++ [uint32_wrap hashKey] |}.

Definition AddIdentityProvider (provider : ProfileIdentityProvider)
    (st : ProfileManagerImpl) : ProfileManagerImpl :=
  {| m_identityProviders := <[GetIdentifierKey provider := provider]> (m_identityProviders st);
     m_profiles := m_profiles st;
     m_profileIndices := m_profileIndices st |}.

Definition GetNumProfiles (st : ProfileManagerImpl) : nat :=
  length (m_profileIndices st).

(** [m_profiles[m_profileIndices[index]]]; [None] where the C++ indexes out
    of range. *)
Definition GetProfile (st : ProfileManagerImpl) (index : nat) : option ProfileImpl :=
  m_profileIndices st !! index ≫= λ k, m_profiles st !! k.

(** *** Suggestion ingestion: the callback of [Initialize] *)

(** The pair [(matchesExistingProfile, matchingProfile)]; the matching
    profile is an object owned by [m_profiles] and is named by its key. *)
Definition match_state : Type := bool * option Z.

(** The loop over [j]: the identifiers of [thatProfile], stored under [k]. *)
Fixpoint scan_identifiers (identifier : ProfileIdentifier) (k : Z)
    (thoseIdentifiers : list ProfileIdentifier) (ms : match_state) : match_state :=
  match thoseIdentifiers with
  | [] => ms
  | thatIdentifier :: rest =>
      if decide (identifier = thatIdentifier) then (true, Some k)
      else scan_identifiers identifier k rest ms
  end.

(** The loop over [m_profiles], left when [matchesExistingProfile] is set
    after a profile has been looked at. *)
Fixpoint scan_profiles (identifier : ProfileIdentifier)
    (profiles : list (Z * ProfileImpl)) (ms : match_state) : match_state :=
  match profiles with
  | [] => ms
  | (k, thatProfile) :: rest =>
      let ms' := scan_identifiers identifier k (GetIdentifiers thatProfile) ms in
      if ms'.1 then ms' else scan_profiles identifier rest ms'
  end.

(** One round of the loop over [i]. *)
Definition suggestion_step (m : gmap Z ProfileImpl)
    (acc : match_state * Z) (identifier : ProfileIdentifier) : match_state * Z :=
  (scan_profiles identifier (map_iter m) acc.1, hash_step acc.2 identifier).

Definition suggestion_scan (m : gmap Z ProfileImpl)
    (identifiers : list ProfileIdentifier) : match_state * Z :=
  fold_left (suggestion_step m) identifiers ((false, None), 0).

Definition copy_display (profileImpl matchingProfile : ProfileImpl) : ProfileImpl :=
  SetTileURI (GetTileURI profileImpl)
    (SetDisplayName (GetDisplayName profileImpl) matchingProfile).

(** The function handed to [GetProfiles]. *)
Definition Initialize_callback (profileImpl : ProfileImpl)
    (st : ProfileManagerImpl) : ProfileManagerImpl :=
  let '((matchesExistingProfile, matchingProfile), hashKey) :=
    suggestion_scan (m_profiles st) (GetIdentifiers profileImpl) in
  let hashKey := Z.land hashKey UINT32_MAX in
  let profileImpl := SetInternalIdentifier hashKey (SetIsSuggestion true profileImpl) in
  if negb matchesExistingProfile then store_profile hashKey profileImpl st
  else
    match matchingProfile with
    | Some k =>
        {| m_identityProviders := m_identityProviders st;
           m_profiles := alter (copy_display profileImpl) k (m_profiles st);
           m_profileIndices := m_profileIndices st |}
    | None => st
    end.

(** *** The persisted document *)

(** A value of the document tree; the kind of a number plays no part in the
    component, which only asks whether a value is a string, an array or an
    object. *)
Inductive json :=
| JNull
| JBool (b : bool)
| JNumber (n : Z)
| JString (s : string)
| JArray (elements : list json)
| JObject (members : list (string * json)).

Definition IsObject (v : json) : bool := match v with JObject _ => true | _ => false end.
Definition IsArray (v : json) : bool := match v with JArray _ => true | _ => false end.
Definition IsString (v : json) : bool := match v with JString _ => true | _ => false end.

Definition GetString (v : json) : string := match v with JString s => s | _ => "" end.
Definition Elements (v : json) : list json := match v with JArray l => l | _ => [] end.
Definition Size (v : json) : nat := length (Elements v).

Fixpoint find_member (name : string) (members : list (string * json)) : option json :=
  match members with
  | [] => None
  | (n, v) :: rest => if decide (n = name) then Some v else find_member name rest
  end.

(** [value[name]] guarded by [value.HasMember(name)]: the first member of
    that name. *)
Definition FindMember (name : string) (v : json) : option json :=
  match v with JObject members => find_member name members | _ => None end.

(** The function applied to each element of ["identifiers"].  The pair is
    made from the two [GetString()] pointers, so each of its strings ends
    before the first NUL of the string in the document. *)
Definition ParseStoredProfiles_identifier (acc : list ProfileIdentifier * Z)
    (identifierMember : json) : list ProfileIdentifier * Z :=
  if negb (IsArray identifierMember) then acc else
  if negb (Nat.eqb (Size identifierMember) 2) then acc else
  match Elements identifierMember !! 0%nat, Elements identifierMember !! 1%nat with
  | Some left_, Some right_ =>
      if negb (IsString left_) then acc else
      if negb (IsString right_) then acc else
      let identifier := (c_str (GetString left_), c_str (GetString right_)) in
      (acc.1 ++ [identifier], hash_step acc.2 identifier)
  | _, _ => acc
  end.

(** The function applied to each element of ["profiles"]. *)
Definition ParseStoredProfiles_profile (st : ProfileManagerImpl)
    (value : json) : ProfileManagerImpl :=
  if negb (IsObject value) then st else
  match FindMember "displayName" value with
  | None => st
  | Some displayNameMember =>
  if negb (IsString displayNameMember) then st else
  match FindMember "tileUri" value with
  | None => st
  | Some tileUriMember =>
  if negb (IsString tileUriMember) then st else
  match FindMember "identifiers" value with
  | None => st
  | Some identifiersMember =>
  if negb (IsArray identifiersMember) then st else
  let '(identifiers, hashKey) :=
    fold_left ParseStoredProfiles_identifier (Elements identifiersMember) ([], 0) in
  let profile := SetDisplayName (GetString displayNameMember) new_ProfileImpl in
  let profile := SetTileURI (GetString tileUriMember) profile in
  let profile := SetInternalIdentifier hashKey profile in
  let profile := SetIdentifiers identifiers profile in
  store_profile hashKey profile st
  end end end.

(** [document] is what rapidjson's [Parse] made of the text: [None] when
    [HasParseError]. *)
Definition ParseStoredProfiles (document : option json)
    (st : ProfileManagerImpl) : ProfileManagerImpl :=
  match document with
  | None => st
  | Some document =>
      if IsObject document then
        match FindMember "profiles" document with
        | Some profiles =>
            if IsArray profiles
            then fold_left ParseStoredProfiles_profile (Elements profiles) st
            else st
        | None => st
        end
      else st
  end.

(** [identifierValue]: the two strings are written from their [c_str()]. *)
Definition identifier_value (identifier : ProfileIdentifier) : json :=
  JArray [JString (c_str identifier.1); JString (c_str identifier.2)].

Definition profile_data (profile : ProfileImpl) : json :=
  JObject [("displayName", JString (GetDisplayName profile));
           ("tileUri", JString (GetTileURI profile));
           ("identifiers", JArray (identifier_value <$> GetIdentifiers profile))].

(** The document [UpdateStoredProfiles] hands to the writer and then to
    [SaveStoredProfiles]. *)
Definition UpdateStoredProfiles (st : ProfileManagerImpl) : json :=
  JObject [("profiles", JArray ((λ profilePair, profile_data profilePair.2) <$> map_iter (m_profiles st)))].

(** [LoadStoredProfiles] reads and decrypts the file and parses what it got;
    [stored] is [None] when there is no file or it does not decrypt. *)
Definition LoadStoredProfiles (stored : option (option json))
    (st : ProfileManagerImpl) : ProfileManagerImpl :=
  match stored with
  | Some document => ParseStoredProfiles document st
  | None => st
  end.

(** [candidates] lists the profiles the suggestion providers hand to the
    callback, in the order of the calls. *)
Definition Initialize (stored : option (option json)) (candidates : list ProfileImpl)
    (st : ProfileManagerImpl) : ProfileManagerImpl :=
  fold_left (λ st profile, Initialize_callback profile st) candidates
    (LoadStoredProfiles stored st).

(** *** Tasks and results *)

(** The three ways the source constructs a [ProfileTaskResult]. *)
Inductive ProfileTaskResult :=
| ProfileTaskResult_default
| ProfileTaskResult_flag (success : bool)
| ProfileTaskResult_error (success : bool) (error : string).

(** A task is completed with a value or never completes. *)
Definition task (A : Type) : Type := option A.

Definition task_from_result {A : Type} (result : A) : task A := Some result.

Definition AddProfile (profile : ProfileImpl) (st : ProfileManagerImpl)
    : task ProfileTaskResult * ProfileManagerImpl :=
  let result := ProfileTaskResult_default in
  (task_from_result result, st).

Definition SetPrimaryProfile (profile : ProfileImpl) (st : ProfileManagerImpl)
    : task ProfileTaskResult * ProfileManagerImpl :=
  let result := ProfileTaskResult_default in
  (task_from_result result, st).

(** *** Sign-in *)

Inductive Result := Succeeded | Error (code : Z).

(** The Terminal client: the answers of the remote backend. *)
Record IClient := {
  ConnectRemote : string → Result;
  AuthenticateWithTokenBag : gmap string string → Result
}.

(** What a sign-in does to the world outside the manager. *)
Inductive call :=
| CallProcessIdentity (key : string) (index : nat)
| CallConnectRemote (uri : string)
| CallAuthenticate (tokenBag : gmap string string)
| CallSaveStoredProfiles (document : json).

(** The objects shared by the continuations of [SignIn]. *)
Record SignInState := {
  idx : nat;
  tokenBag : gmap string string;
  calls : list call;
  resultEvent : task ProfileTaskResult
}.

Definition log (c : call) (s : SignInState) : SignInState :=
  {| idx := idx s; tokenBag := tokenBag s; calls := calls s ++ [c];
     resultEvent := resultEvent s |}.

Definition resultEvent_set (r : ProfileTaskResult) (s : SignInState) : SignInState :=
  {| idx := idx s; tokenBag := tokenBag s; calls := calls s; resultEvent := Some r |}.

(** Modelled from the spec: [TokenBag] belongs to the Terminal library; the
    spec has it map a token type to the token acquired for it. *)
Definition AddToken (tokenType token : string) (s : SignInState) : SignInState :=
  {| idx := idx s; tokenBag := <[tokenType := token]> (tokenBag s);
     calls := calls s; resultEvent := resultEvent s |}.

(** The increment of [*idx]. *)
Definition next_idx (s : SignInState) : SignInState :=
  {| idx := S (idx s); tokenBag := tokenBag s; calls := calls s;
     resultEvent := resultEvent s |}.

(** [va(format, code)] with a single [%d]. *)
Definition va (before : string) (code : Z) (after : string) : string :=
  before +:+ NilZero.string_of_int (Z.to_int code) +:+ after.

Section SignIn.

Variable client : IClient.
Variable st : ProfileManagerImpl.
Variable profile : ProfileImpl.
Variable parameters : gmap string string.

(** The branch of [continueIdentifier] taken when no identifier is left. *)
Definition connect_and_authenticate (s : SignInState) : SignInState :=
  let s := log (CallConnectRemote "layer1://localhost:3036") s in
  match ConnectRemote client "layer1://localhost:3036" with
  | Succeeded =>
      let s := log (CallAuthenticate (tokenBag s)) s in
      match AuthenticateWithTokenBag client (tokenBag s) with
      | Succeeded =>
          resultEvent_set (ProfileTaskResult_flag true)
            (log (CallSaveStoredProfiles (UpdateStoredProfiles st)) s)
      | Error code =>
          resultEvent_set
            (ProfileTaskResult_error false
               (va "Authenticating to Terminal failed - error code " code ".")) s
      end
  | Error code =>
      resultEvent_set
        (ProfileTaskResult_error false
           (va "Connecting to Terminal failed - error code " code ".")) s
  end.

(** [continueIdentifier->func] together with [identifierCB]; [rest] holds
    the identifiers from position [*idx] on, so [*idx < numIdentifiers]
    exactly when [rest] is not empty. *)
Fixpoint continueIdentifier (rest : list ProfileIdentifier) (s : SignInState) : SignInState :=
  match rest with
  | identifier :: rest' =>
      match m_identityProviders st !! identifier.1 with
      | Some provider =>
          let s := log (CallProcessIdentity identifier.1 (idx s)) s in
          match ProcessIdentity provider (idx s) profile parameters with
          | IdentitySucceeded tokenType token =>
              continueIdentifier rest' (next_idx (AddToken tokenType token s))
          | IdentityFailed error =>
              resultEvent_set (ProfileTaskResult_error false error) s
          end
      | None => s
      end
  | [] => connect_and_authenticate s
  end.

(** The shared objects when the chain started by [SignIn] has come to rest. *)
Definition SignIn_run : SignInState :=
  continueIdentifier (GetIdentifiers profile)
    {| idx := 0; tokenBag := ∅; calls := []; resultEvent := None |}.

(** The task [SignIn] returns: completed when [resultEvent] was set. *)
Definition SignIn : task ProfileTaskResult := resultEvent SignIn_run.

End SignIn.

End Model.

(** ** A concrete target for the examples *)

(** FNV-1a over the characters of the key and then of the value: a content
    hash of the pair to run the model on. *)
Definition fnv1a_step (h : Z) (c : Ascii.ascii) : Z :=
  (Z.lxor h (Z.of_nat (Ascii.nat_of_ascii c)) * 16777619) mod 2 ^ 32.

Definition fnv1a (h : Z) (s : string) : Z :=
  fold_left fnv1a_step (String.list_ascii_of_string s) h.

Definition example_hash (identifier : ProfileIdentifier) : Z :=
  fnv1a (fnv1a 2166136261 identifier.1) identifier.2.


(** ** Notions the properties are stated with *)

(** Some stored profile holds [identifier]. *)
Definition held (m : gmap Z ProfileImpl) (identifier : ProfileIdentifier) : Prop :=
  ∃ k p, m !! k = Some p ∧ identifier ∈ GetIdentifiers p.

(** The two profiles have an identifier in common. *)
Definition shares_identifier (profileImpl p : ProfileImpl) : Prop :=
  ∃ identifier, identifier ∈ GetIdentifiers profileImpl ∧ identifier ∈ GetIdentifiers p.

(** The states a manager goes through: it is constructed empty, and its
    members are private to the operations below. *)
Inductive reachable (target : arch) (hash_value : ProfileIdentifier → Z)
    : ProfileManagerImpl → Prop :=
| reachable_new : reachable target hash_value new_ProfileManagerImpl
| reachable_provider st provider :
    reachable target hash_value st →
    reachable target hash_value (AddIdentityProvider provider st)
| reachable_parse st document :
    reachable target hash_value st →
    reachable target hash_value (ParseStoredProfiles target hash_value document st)
| reachable_suggestion st profileImpl :
    reachable target hash_value st →
    reachable target hash_value (Initialize_callback target hash_value profileImpl st).

(** The search part of [suggestion_scan] on its own. *)
Definition search (m : gmap Z ProfileImpl) (identifiers : list ProfileIdentifier)
    (ms : match_state) : match_state :=
  fold_left (λ ms identifier, scan_profiles identifier (map_iter m) ms) identifiers ms.

(** The search state names a stored profile that holds one of [identifiers]. *)
Definition names_holder (m : gmap Z ProfileImpl) (identifiers : list ProfileIdentifier)
    (ms : match_state) : Prop :=
  ∃ k p identifier, ms = (true, Some k) ∧ m !! k = Some p
    ∧ identifier ∈ identifiers ∧ identifier ∈ GetIdentifiers p.

(** The reading of the selection rule by discovery order: the first key of
    [m_profileIndices] whose profile shares an identifier with the candidate. *)
Definition shares_identifier_b (profileImpl p : ProfileImpl) : bool :=
  existsb (λ identifier, bool_decide (identifier ∈ GetIdentifiers p)) (GetIdentifiers profileImpl).

Fixpoint first_sharing (m : gmap Z ProfileImpl) (profileImpl : ProfileImpl)
    (indices : list Z) : option Z :=
  match indices with
  | [] => None
  | k :: rest =>
      match m !! k with
      | Some p => if shares_identifier_b profileImpl p then Some k
                  else first_sharing m profileImpl rest
      | None => first_sharing m profileImpl rest
      end
  end.

Definition first_match_in_discovery_order (st : ProfileManagerImpl)
    (profileImpl : ProfileImpl) : option Z :=
  first_sharing (m_profiles st) profileImpl (m_profileIndices st).

(** The profile the callback stores for a candidate it does not merge. *)
Definition suggested (target : arch) (hash_value : ProfileIdentifier → Z)
    (profileImpl : ProfileImpl) : ProfileImpl :=
  {| GetDisplayName := GetDisplayName profileImpl;
     GetTileURI := GetTileURI profileImpl;
     GetIdentifiers := GetIdentifiers profileImpl;
     IsSuggestion := true;
     GetInternalIdentifier := fingerprint target hash_value (GetIdentifiers profileImpl) |}.

(** A stored profile after the display data of a candidate is copied to it. *)
Definition redisplayed (profileImpl p : ProfileImpl) : ProfileImpl :=
  {| GetDisplayName := GetDisplayName profileImpl;
     GetTileURI := GetTileURI profileImpl;
     GetIdentifiers := GetIdentifiers p;
     IsSuggestion := IsSuggestion p;
     GetInternalIdentifier := GetInternalIdentifier p |}.

(** Sample data *)
Definition stored_entry (name uri : string) (identifiers : list ProfileIdentifier) : json :=
  JObject [("displayName", JString name); ("tileUri", JString uri);
           ("identifiers", JArray (identifier_value <$> identifiers))].

Definition candidate (name uri : string) (identifiers : list ProfileIdentifier) : ProfileImpl :=
  {| GetDisplayName := name; GetTileURI := uri; GetIdentifiers := identifiers;
     IsSuggestion := false; GetInternalIdentifier := 0 |}.

Definition three_profiles : json :=
  JObject [("profiles", JArray [stored_entry "B" "tile-b" [("ros", "2")];
                                stored_entry "C" "tile-c" [("xbl", "3")];
                                stored_entry "A" "tile-a" [("steam", "1")]])].

Definition three_profile_store : ProfileManagerImpl :=
  ParseStoredProfiles X64 example_hash (Some three_profiles) new_ProfileManagerImpl.

(** The identifier a well-formed pair stands for: an array of exactly two
    strings, each taken up to its first NUL. *)
Definition identifier_of_pair (v : json) : option ProfileIdentifier :=
  match v with
  | JArray [JString key; JString value] => Some (c_str key, c_str value)
  | _ => None
  end.

(** The profile a well-formed entry stands for: an object whose
    ["displayName"] and ["tileUri"] are strings and whose ["identifiers"] is
    an array; the elements of that array that are not well-formed pairs are
    left out. *)
Definition profile_of_entry (target : arch) (hash_value : ProfileIdentifier → Z)
    (v : json) : option ProfileImpl :=
  match v with
  | JObject members =>
      match find_member "displayName" members,
            find_member "tileUri" members,
            find_member "identifiers" members with
      | Some (JString name), Some (JString uri), Some (JArray pairs) =>
          let identifiers := omap identifier_of_pair pairs in
          Some {| GetDisplayName := name; GetTileURI := uri;
                  GetIdentifiers := identifiers; IsSuggestion := false;
                  GetInternalIdentifier := fingerprint target hash_value identifiers |}
      | _, _, _ => None
      end
  | _ => None
  end.

(** Malformed in the sense of the stricter reading, which also counts an
    entry as malformed when one of its identifier pairs is. *)
Definition malformed_pair (v : json) : bool :=
  match identifier_of_pair v with Some _ => false | None => true end.

Definition malformed_entry_strict (v : json) : bool :=
  match v with
  | JObject members =>
      match find_member "displayName" members,
            find_member "tileUri" members,
            find_member "identifiers" members with
      | Some (JString _), Some (JString _), Some (JArray pairs) => existsb malformed_pair pairs
      | _, _, _ => true
      end
  | _ => true
  end.

(** The store after [profile] is put under its fingerprint. *)
Definition inserted (profile : ProfileImpl) (st : ProfileManagerImpl) : ProfileManagerImpl :=
  {| m_identityProviders := m_identityProviders st;
     m_profiles := <[GetInternalIdentifier profile := profile]> (m_profiles st);
     m_profileIndices := m_profileIndices st ++ [GetInternalIdentifier profile] |}.

(** Every stored profile sits under the fingerprint of its identifiers and
    carries it, and the enumeration lists the keys of the store. *)
Definition consistent (target : arch) (hash_value : ProfileIdentifier → Z)
    (st : ProfileManagerImpl) : Prop :=
  (∀ k p, m_profiles st !! k = Some p →
     k = fingerprint target hash_value (GetIdentifiers p) ∧ GetInternalIdentifier p = k)
  ∧ (∀ k, k ∈ m_profileIndices st ↔ is_Some (m_profiles st !! k)).

(** Decoding the document the manager would save, into a new manager. *)
Definition reloaded (target : arch) (hash_value : ProfileIdentifier → Z)
    (st : ProfileManagerImpl) : ProfileManagerImpl :=
  ParseStoredProfiles target hash_value (Some (UpdateStoredProfiles st)) new_ProfileManagerImpl.

(** The calls a sign-in makes to the remote backend. *)
Definition is_backend_call (c : call) : bool :=
  match c with
  | CallProcessIdentity _ _ => false
  | CallConnectRemote _ | CallAuthenticate _ | CallSaveStoredProfiles _ => true
  end.

(** The resolutions of [identifiers], the first of them at position [from]. *)
Definition resolutions (from : nat) (identifiers : list ProfileIdentifier) : list call :=
  imap (λ j identifier, CallProcessIdentity identifier.1 (from + j)) identifiers.

Definition steam_profile : ProfileImpl :=
  candidate "player" "tile" [("steam", "76561197960287930")].

(** Each of [identifiers], the first of them at position [from], has a
    registered provider, and that provider succeeds. *)
Definition resolves (st : ProfileManagerImpl) (profile : ProfileImpl)
    (parameters : gmap string string) (from : nat)
    (identifiers : list ProfileIdentifier) : Prop :=
  ∀ j identifier, identifiers !! j = Some identifier →
    ∃ provider tokenType token,
      m_identityProviders st !! identifier.1 = Some provider
      ∧ ProcessIdentity provider (from + j) profile parameters
        = IdentitySucceeded tokenType token.

(** *** Sample data *)

Definition profile_A : ProfileImpl :=
  {| GetDisplayName := "A"; GetTileURI := "tile-a"; GetIdentifiers := [("steam", "1")];
     IsSuggestion := false; GetInternalIdentifier := 2519807026 |}.

Definition profile_B : ProfileImpl :=
  {| GetDisplayName := "B"; GetTileURI := "tile-b"; GetIdentifiers := [("ros", "2")];
     IsSuggestion := false; GetInternalIdentifier := 700960781 |}.

Definition profile_C : ProfileImpl :=
  {| GetDisplayName := "C"; GetTileURI := "tile-c"; GetIdentifiers := [("xbl", "3")];
     IsSuggestion := false; GetInternalIdentifier := 1620722314 |}.

(** A candidate holding the identifier of [profile_A] and then that of
    [profile_C]. *)
Definition candidate_AC : ProfileImpl :=
  candidate "suggested" "tile-s" [("steam", "1"); ("xbl", "3")].

(** An entry whose second identifier pair has a single element. *)
Definition entry_with_bad_pair : json :=
  JObject [("displayName", JString "D"); ("tileUri", JString "tile-d");
           ("identifiers", JArray [JArray [JString "steam"; JString "1"];
                                   JArray [JString "lonely"]])].

(** The characters a, NUL, b. *)
Definition a_nul_b : string := String (Ascii.ascii_of_nat 97) (String Ascii.zero "b").

(** An entry whose identifier key holds a NUL, and the profile it is loaded
    as. *)
Definition entry_with_nul : json :=
  JObject [("displayName", JString "N"); ("tileUri", JString "tile-n");
           ("identifiers", JArray [JArray [JString a_nul_b; JString "1"]])].

Definition profile_N : ProfileImpl :=
  {| GetDisplayName := "N"; GetTileURI := "tile-n"; GetIdentifiers := [("a", "1")];
     IsSuggestion := false; GetInternalIdentifier := 1416505845 |}.

(** A document with malformed entries among well-formed ones. *)
Definition mixed_profiles : list json :=
  [ stored_entry "B" "tile-b" [("ros", "2")];
    JString "not an object";
    JObject [("displayName", JNumber 7); ("tileUri", JString "t"); ("identifiers", JArray [])];
    entry_with_nul;
    JObject [("displayName", JString "no identifiers"); ("tileUri", JString "t")];
    stored_entry "A" "tile-a" [("steam", "1")] ].

Definition mixed_document : json := JObject [("profiles", JArray mixed_profiles)].

(** A document whose only profile lists the same identifier twice. *)
Definition doubled_document : json :=
  JObject [("profiles", JArray [stored_entry "A" "tile-a" [("steam", "1"); ("steam", "1")]])].

Definition steam_provider : ProfileIdentityProvider :=
  {| GetIdentifierKey := "steam";
     ProcessIdentity := λ _ _ _, IdentitySucceeded "bearer" "abc123" |}.

Definition ros_provider : ProfileIdentityProvider :=
  {| GetIdentifierKey := "ros";
     ProcessIdentity := λ _ _ _, IdentityFailed "denied" |}.

Definition two_provider_manager : ProfileManagerImpl :=
  AddIdentityProvider ros_provider
    (AddIdentityProvider steam_provider new_ProfileManagerImpl).

Definition three_identifier_profile : ProfileImpl :=
  candidate "player" "tile" [("steam", "1"); ("ros", "2"); ("xbl", "3")].

Definition willing_client : IClient :=
  {| ConnectRemote := λ _, Succeeded; AuthenticateWithTokenBag := λ _, Succeeded |}.

Definition steam_manager : ProfileManagerImpl :=
  AddIdentityProvider steam_provider new_ProfileManagerImpl.

Definition refusing_client : IClient :=
  {| ConnectRemote := λ _, Error 7; AuthenticateWithTokenBag := λ _, Succeeded |}.

Definition rejecting_client : IClient :=
  {| ConnectRemote := λ _, Succeeded; AuthenticateWithTokenBag := λ _, Error 3 |}.

(** A candidate whose identifier no profile of [three_profile_store] holds. *)
Definition candidate_D : ProfileImpl :=
  candidate "D" "tile-d" [("psn", "9")].

(** Two entries with the same identifier. *)
Definition first_entry_profile : ProfileImpl :=
  {| GetDisplayName := "first"; GetTileURI := "tile-1"; GetIdentifiers := [("steam", "1")];
     IsSuggestion := false; GetInternalIdentifier := 2519807026 |}.

Definition second_entry_profile : ProfileImpl :=
  {| GetDisplayName := "second"; GetTileURI := "tile-2"; GetIdentifiers := [("steam", "1")];
     IsSuggestion := false; GetInternalIdentifier := 2519807026 |}.

Definition twice_profiles : list json :=
  [stored_entry "first" "tile-1" [("steam", "1")];
   stored_entry "second" "tile-2" [("steam", "1")]].

Definition twice_document : json := JObject [("profiles", JArray twice_profiles)].

(** Two entries whose identifier keys differ after a NUL only. *)
Definition profile_M : ProfileImpl :=
  {| GetDisplayName := "M"; GetTileURI := "tile-m"; GetIdentifiers := [("a", "1")];
     IsSuggestion := false; GetInternalIdentifier := 1416505845 |}.

Definition nul_twice_profiles : list json :=
  [entry_with_nul;
   JObject [("displayName", JString "M"); ("tileUri", JString "tile-m");
            ("identifiers", JArray [JArray [JString "a"; JString "1"]])]].

Definition nul_twice_document : json := JObject [("profiles", JArray nul_twice_profiles)].

(** No identifier of a stored profile holds a NUL. *)
Definition nul_free_identifiers (st : ProfileManagerImpl) : Prop :=
  ∀ k p identifier, m_profiles st !! k = Some p → identifier ∈ GetIdentifiers p →
    nul_free identifier.1 = true ∧ nul_free identifier.2 = true.

Definition candidate_with_nul : ProfileImpl :=
  candidate "N" "tile-n" [(a_nul_b, "1")].

(** Two profiles that hold the same identifier, loaded before a third. *)
Definition profile_pair : ProfileImpl :=
  {| GetDisplayName := "pair"; GetTileURI := "tile-p";
     GetIdentifiers := [("steam", "1"); ("ros", "2")];
     IsSuggestion := false; GetInternalIdentifier := 3220628543 |}.

Definition profile_solo : ProfileImpl :=
  {| GetDisplayName := "solo"; GetTileURI := "tile-o"; GetIdentifiers := [("steam", "1")];
     IsSuggestion := false; GetInternalIdentifier := 2519807026 |}.

Definition holders_document : json :=
  JObject [("profiles", JArray [stored_entry "pair" "tile-p" [("steam", "1"); ("ros", "2")];
                                stored_entry "solo" "tile-o" [("steam", "1")];
                                stored_entry "C" "tile-c" [("xbl", "3")]])].

Definition holders_store : ProfileManagerImpl :=
  ParseStoredProfiles X64 example_hash (Some holders_document) new_ProfileManagerImpl.

(** A store whose only profile holds two identifiers. *)
Definition pair_store : ProfileManagerImpl :=
  ParseStoredProfiles X64 example_hash
    (Some (JObject [("profiles",
                     JArray [stored_entry "pair" "tile-p" [("steam", "1"); ("ros", "2")]])]))
    new_ProfileManagerImpl.

Definition candidate_S : ProfileImpl :=
  candidate "suggested" "tile-s" [("steam", "1")].

Definition candidate_PSR : ProfileImpl :=
  candidate "suggested" "tile-s" [("psn", "9"); ("steam", "1"); ("ros", "2")].

(** A candidate holding the identifier of [profile_A] and then that of
    [profile_B], the first profile of [three_profile_store]. *)
Definition candidate_AB : ProfileImpl :=
  candidate "suggested" "tile-s" [("steam", "1"); ("ros", "2")].

(** [three_profile_store] after a suggestion that matches none of its
    profiles. *)
Definition four_profile_store : ProfileManagerImpl :=
  Initialize_callback X64 example_hash candidate_D three_profile_store.

End ProfileManager.

(** ** Strings through [const char*] *)

Section Strings.

Lemma c_str_nul_free (s : string) : nul_free (c_str s) = true.
Proof.
  induction s as [|c s IH]; simpl; [reflexivity|].
  destruct (Ascii.eqb c Ascii.zero) eqn:Hc; simpl; [reflexivity|].
  now rewrite Hc, IH.
Qed.

Lemma c_str_id (s : string) : nul_free s = true → c_str s = s.
Proof.
  induction s as [|c s IH]; simpl; [reflexivity|].
  destruct (Ascii.eqb c Ascii.zero); simpl; [discriminate|].
  intros Hs. now rewrite IH.
Qed.

Lemma c_str_idemp (s : string) : c_str (c_str s) = c_str s.
Proof. apply c_str_id, c_str_nul_free. Qed.

Lemma cut_identifier_idemp (identifier : ProfileIdentifier) :
  cut_identifier (cut_identifier identifier) = cut_identifier identifier.
Proof. unfold cut_identifier. simpl. now rewrite !c_str_idemp. Qed.

Lemma cut_identifier_id (identifier : ProfileIdentifier) :
  nul_free identifier.1 = true → nul_free identifier.2 = true →
  cut_identifier identifier = identifier.
Proof.
  destruct identifier as [key value]. unfold cut_identifier. simpl.
  intros Hk Hv. now rewrite !c_str_id.
Qed.

Lemma cut_identifiers_id (identifiers : list ProfileIdentifier) :
  (∀ identifier, identifier ∈ identifiers →
     nul_free identifier.1 = true ∧ nul_free identifier.2 = true) →
  cut_identifier <$> identifiers = identifiers.
Proof.
  induction identifiers as [|x identifiers IH]; intros Hall; csimpl; [reflexivity|].
  destruct (Hall x) as [H1 H2]; [left|].
  rewrite cut_identifier_id by assumption. f_equal. apply IH.
  intros y Hy. apply Hall. now right.
Qed.

Lemma cut_identifiers_nul_free (identifiers : list ProfileIdentifier)
    (identifier : ProfileIdentifier) :
  identifier ∈ cut_identifier <$> identifiers →
  nul_free identifier.1 = true ∧ nul_free identifier.2 = true.
Proof.
  intros Hin. apply list_elem_of_fmap in Hin as (x & -> & _).
  split; apply c_str_nul_free.
Qed.

End Strings.

(** ** Properties of the fingerprint *)

Section FingerprintFacts.

Variable target : arch.
Variable hash_value : ProfileIdentifier → Z.

Local Abbreviation fingerprint := (fingerprint target hash_value).
Local Abbreviation hash_step := (hash_step target hash_value).
Local Abbreviation std_hash := (std_hash target hash_value).

Lemma land_UINT32_MAX (x : Z) : Z.land x UINT32_MAX = x mod 2 ^ 32.
Proof.
  change UINT32_MAX with (Z.ones 32). apply Z.land_ones. lia.
Qed.

Lemma uint32_wrap_land (x : Z) : uint32_wrap x = Z.land x UINT32_MAX.
Proof. symmetry. apply land_UINT32_MAX. Qed.

Lemma size_t_wrap_low (x : Z) :
  Z.land (size_t_wrap target x) UINT32_MAX = Z.land x UINT32_MAX.
Proof.
  rewrite !land_UINT32_MAX. unfold size_t_wrap.
  apply Z.mod_mod_divide.
  destruct target; simpl size_t_bits.
  - exists 1. lia.
  - exists (2 ^ 32). lia.
Qed.

Lemma land_lxor_UINT32_MAX (a b : Z) :
  Z.land (Z.lxor a b) UINT32_MAX = Z.lxor (Z.land a UINT32_MAX) (Z.land b UINT32_MAX).
Proof.
  apply Z.bits_inj'. intros n Hn.
  rewrite Z.land_spec, !Z.lxor_spec, !Z.land_spec.
  destruct (Z.testbit a n), (Z.testbit b n), (Z.testbit UINT32_MAX n); reflexivity.
Qed.

Lemma fingerprint_nil : fingerprint [] = 0.
Proof. reflexivity. Qed.

Lemma fingerprint_cons (identifier : ProfileIdentifier) (identifiers : list ProfileIdentifier) :
  fingerprint (identifier :: identifiers)
  = Z.lxor (Z.land (3 * std_hash identifier) UINT32_MAX) (fingerprint identifiers).
Proof. unfold ProfileManager.fingerprint. simpl. apply land_lxor_UINT32_MAX. Qed.

Lemma fingerprint_range (identifiers : list ProfileIdentifier) :
  0 ≤ fingerprint identifiers < 2 ^ 32.
Proof.
  unfold ProfileManager.fingerprint. rewrite land_UINT32_MAX. apply Z.mod_pos_bound. lia.
Qed.

Lemma uint32_wrap_fingerprint (identifiers : list ProfileIdentifier) :
  uint32_wrap (fingerprint identifiers) = fingerprint identifiers.
Proof. apply Z.mod_small, fingerprint_range. Qed.

(** The running [hashKey] of either loop, seen through the 32-bit mask. *)
Lemma hash_fold_masked (identifiers : list ProfileIdentifier) (hashKey : Z) :
  Z.land (fold_left hash_step identifiers hashKey) UINT32_MAX
  = Z.lxor (Z.land hashKey UINT32_MAX) (fingerprint identifiers).
Proof.
  revert hashKey. induction identifiers as [|identifier identifiers IH]; intros hashKey.
  - simpl. rewrite fingerprint_nil. symmetry. apply Z.lxor_0_r.
  - simpl. rewrite IH, fingerprint_cons. unfold ProfileManager.hash_step at 1.
    rewrite land_lxor_UINT32_MAX, size_t_wrap_low. apply Z.lxor_assoc.
Qed.

Lemma hash_fold_fingerprint (identifiers : list ProfileIdentifier) :
  Z.land (fold_left hash_step identifiers 0) UINT32_MAX = fingerprint identifiers.
Proof. rewrite hash_fold_masked. apply Z.lxor_0_l. Qed.

Lemma fingerprint_Permutation (ids ids' : list ProfileIdentifier) :
  ids ≡ₚ ids' → fingerprint ids = fingerprint ids'.
Proof.
  induction 1 as [|x l l' _ IH|x y l|l l' l'' _ IH1 _ IH2].
  - reflexivity.
  - rewrite !fingerprint_cons. now rewrite IH.
  - rewrite !fingerprint_cons, <- !Z.lxor_assoc. f_equal. apply Z.lxor_comm.
  - congruence.
Qed.

Lemma fingerprint_app (ids ids' : list ProfileIdentifier) :
  fingerprint (ids ++ ids') = Z.lxor (fingerprint ids) (fingerprint ids').
Proof.
  induction ids as [|x ids IH]; simpl.
  - rewrite fingerprint_nil. symmetry. apply Z.lxor_0_l.
  - rewrite !fingerprint_cons, IH. symmetry. apply Z.lxor_assoc.
Qed.

(** An identifier listed twice cancels itself. *)
Lemma fingerprint_duplicate (identifier : ProfileIdentifier)
    (identifiers : list ProfileIdentifier) :
  fingerprint (identifier :: identifier :: identifiers) = fingerprint identifiers.
Proof.
  rewrite !fingerprint_cons, <- Z.lxor_assoc, Z.lxor_nilpotent. apply Z.lxor_0_l.
Qed.

Lemma suggestion_scan_hashKey_gen (m : gmap Z ProfileImpl) (identifiers : list ProfileIdentifier)
    (acc : match_state * Z) :
  (fold_left (suggestion_step target hash_value m) identifiers acc).2
  = fold_left hash_step identifiers acc.2.
Proof.
  revert acc. induction identifiers as [|identifier identifiers IH]; intros acc; simpl.
  - reflexivity.
  - rewrite IH. reflexivity.
Qed.

Lemma suggestion_scan_hashKey (m : gmap Z ProfileImpl) (identifiers : list ProfileIdentifier) :
  Z.land (suggestion_scan target hash_value m identifiers).2 UINT32_MAX
  = fingerprint identifiers.
Proof.
  unfold suggestion_scan. rewrite suggestion_scan_hashKey_gen. apply hash_fold_fingerprint.
Qed.

(** C6. The hash key the suggestion callback computes (the value of
    [hashKey] once it is clipped to 32 bits) is the same for an identifier
    sequence and for every permutation of it, whatever the store holds. *)
Theorem hashKey_permutation_invariant (m m' : gmap Z ProfileImpl)
    (ids ids' : list ProfileIdentifier) :
  ids ≡ₚ ids' →
  Z.land (suggestion_scan target hash_value m ids).2 UINT32_MAX
  = Z.land (suggestion_scan target hash_value m' ids').2 UINT32_MAX.
Proof.
  intros Hperm. rewrite !suggestion_scan_hashKey. now apply fingerprint_Permutation.
Qed.

End FingerprintFacts.

(** ** The iteration order of the profile map *)

Section MapIter.

Implicit Types (m : gmap Z ProfileImpl) (k : Z) (p : ProfileImpl).

Lemma map_iter_Permutation m : map_iter m ≡ₚ map_to_list m.
Proof. apply merge_sort_Permutation. Qed.

Lemma elem_of_map_iter m k p : (k, p) ∈ map_iter m ↔ m !! k = Some p.
Proof. rewrite map_iter_Permutation. apply elem_of_map_to_list. Qed.

Lemma map_iter_sorted m : StronglySorted key_le (map_iter m).
Proof. apply StronglySorted_merge_sort; apply _. Qed.

Lemma map_iter_NoDup m : NoDup (map_iter m).*1.
Proof. rewrite map_iter_Permutation. apply NoDup_fst_map_to_list. Qed.

Lemma map_iter_empty : map_iter ∅ = [].
Proof. unfold map_iter. now rewrite map_to_list_empty. Qed.

Lemma map_iter_singleton k p : map_iter {[k := p]} = [(k, p)].
Proof. unfold map_iter. now rewrite map_to_list_singleton. Qed.

(** Everything the iteration visits before the entry of key [k] has a
    smaller key. *)
Lemma map_iter_split m k p :
  m !! k = Some p →
  ∃ pre post, map_iter m = pre ++ (k, p) :: post ∧ Forall (λ kp, kp.1 < k) pre.
Proof.
  intros Hk. apply elem_of_map_iter, list_elem_of_split in Hk as (pre & post & Heq).
  exists pre, post. split; [exact Heq|].
  pose proof (map_iter_sorted m) as Hs. pose proof (map_iter_NoDup m) as Hn.
  rewrite Heq in Hs, Hn. apply Forall_forall. intros [k' p'] Hin. simpl.
  assert (k' ≤ k) as Hle.
  { apply (StronglySorted_app_1_elem_of key_le pre ((k, p) :: post) (k', p') (k, p) Hs Hin).
    left. }
  assert (k' ≠ k); [|lia].
  intros ->. rewrite fmap_app, fmap_cons in Hn. apply NoDup_app in Hn as (_ & Hn & _).
  apply (Hn k).
  - apply list_elem_of_fmap. exists (k, p'). auto.
  - left.
Qed.

(** The iteration starts with the least key. *)
Lemma map_iter_head m k p rest k' :
  map_iter m = (k, p) :: rest → is_Some (m !! k') → k ≤ k'.
Proof.
  intros Heq [p' Hk']. apply elem_of_map_iter in Hk'. pose proof (map_iter_sorted m) as Hs.
  rewrite Heq in Hs, Hk'. apply StronglySorted_cons in Hs as [Hall _].
  apply elem_of_cons in Hk' as [Hk'|Hk'].
  - injection Hk' as -> ->. lia.
  - rewrite Forall_forall in Hall. apply (Hall _ Hk').
Qed.

End MapIter.

(** ** More on the iteration order *)

Section MapIterKeys.

Implicit Types (m : gmap Z ProfileImpl) (k : Z) (p q : ProfileImpl).

Lemma map_iter_keys_sorted m : StronglySorted Z.le (map_iter m).*1.
Proof.
  apply (StronglySorted_fmap fst key_le Z.le); [|apply map_iter_sorted].
  intros x y Hxy. exact Hxy.
Qed.

Lemma elem_of_map_iter_keys m k : k ∈ (map_iter m).*1 ↔ k ∈ dom m.
Proof.
  rewrite elem_of_dom, list_elem_of_fmap. split.
  - intros ([k' p] & -> & Hin). apply elem_of_map_iter in Hin. eauto.
  - intros [p Hp]. exists (k, p). split; [reflexivity | now apply elem_of_map_iter].
Qed.

(** The keys the iteration visits depend on the key set alone. *)
Lemma map_iter_keys_dom m1 m2 : dom m1 = dom m2 → (map_iter m1).*1 = (map_iter m2).*1.
Proof.
  intros Hdom. apply (StronglySorted_unique Z.le); try apply map_iter_keys_sorted.
  apply NoDup_Permutation; try apply map_iter_NoDup.
  intros k. now rewrite !elem_of_map_iter_keys, Hdom.
Qed.

Lemma map_iter_length m : length (map_iter m) = size m.
Proof. rewrite map_iter_Permutation. apply length_map_to_list. Qed.

Lemma sorted_NoDup_strict (l : list Z) :
  StronglySorted Z.le l → NoDup l → StronglySorted Z.lt l.
Proof.
  induction 1 as [|x l Hl IH Hx]; intros Hnd; constructor.
  - apply IH. now apply NoDup_cons in Hnd as [_ Hnd].
  - apply NoDup_cons in Hnd as [Hxl _]. rewrite Forall_forall in Hx |- *.
    intros y Hy. specialize (Hx y Hy). assert (x ≠ y) by (intros ->; contradiction). lia.
Qed.

(** Replacing the profile under a key leaves the order of the iteration. *)
Lemma map_iter_replace m k p q :
  m !! k = Some p →
  map_iter (<[k := q]> m)
  = (λ kp : Z * ProfileImpl, if decide (kp.1 = k) then (k, q) else kp) <$> map_iter m.
Proof.
  intros Hk. set (g := λ kp : Z * ProfileImpl, if decide (kp.1 = k) then (k, q) else kp).
  assert (∀ kp, (g kp).1 = kp.1) as Hg.
  { intros [k' p']. unfold g. simpl. case_decide; simpl; congruence. }
  assert (∀ kp, kp ∈ g <$> map_iter m ↔ <[k := q]> m !! kp.1 = Some kp.2) as Helem.
  { intros [k' p']. simpl. rewrite list_elem_of_fmap, lookup_insert. split.
    - intros ([k1 p1] & Heq & Hin). apply elem_of_map_iter in Hin. unfold g in Heq.
      simpl in Heq. case_decide as Hkk.
      + injection Heq as -> ->. now rewrite decide_True.
      + injection Heq as -> ->. rewrite decide_False by congruence. exact Hin.
    - case_decide as Hkk.
      + intros [= <-]. subst k'. exists (k, p). split.
        * unfold g. simpl. now rewrite decide_True.
        * now apply elem_of_map_iter.
      + intros Hin. exists (k', p'). split.
        * unfold g. simpl. rewrite decide_False by congruence. reflexivity.
        * now apply elem_of_map_iter. }
  apply (StronglySorted_unique_strong key_le).
  - intros [k1 p1] [k2 p2] H1 H2 H12 H21. unfold key_le in H12, H21. simpl in H12, H21.
    assert (k1 = k2) as -> by lia. f_equal.
    apply elem_of_map_iter in H1. apply Helem in H2. simpl in H2. congruence.
  - apply map_iter_sorted.
  - apply (StronglySorted_fmap g key_le key_le); [|apply map_iter_sorted].
    intros x y. unfold key_le. now rewrite !Hg.
  - apply NoDup_Permutation.
    + eapply NoDup_fmap_1. apply map_iter_NoDup.
    + eapply NoDup_fmap_1. rewrite <- list_fmap_compose.
      erewrite list_fmap_ext; [apply map_iter_NoDup|]. intros i kp _. simpl. apply Hg.
    + intros [k' p']. rewrite Helem. simpl. apply elem_of_map_iter.
Qed.

Lemma scan_profiles_same_identifiers (identifier : ProfileIdentifier)
    (l l' : list (Z * ProfileImpl)) (ms : match_state) :
  Forall2 (λ a b, a.1 = b.1 ∧ GetIdentifiers a.2 = GetIdentifiers b.2) l l' →
  scan_profiles identifier l ms = scan_profiles identifier l' ms.
Proof.
  intros Hll. revert ms.
  induction Hll as [|[k p] [k' p'] l l' [Hk Hids] _ IH]; intros ms; [reflexivity|].
  simpl in Hk, Hids. subst k'. simpl. rewrite Hids.
  destruct (scan_identifiers identifier k (GetIdentifiers p') ms) as [[] o]; simpl.
  - reflexivity.
  - apply IH.
Qed.

End MapIterKeys.

(** ** The search for a matching profile *)

Section Matching.

Implicit Types (m : gmap Z ProfileImpl) (k : Z) (p : ProfileImpl)
  (ms : match_state) (identifier : ProfileIdentifier).

Lemma scan_identifiers_spec identifier k (those : list ProfileIdentifier) ms :
  scan_identifiers identifier k those ms
  = if decide (identifier ∈ those) then (true, Some k) else ms.
Proof.
  induction those as [|that those IH]; cbn [scan_identifiers].
  - rewrite decide_False; [reflexivity|]. apply not_elem_of_nil.
  - destruct (decide (identifier = that)) as [->|Hne].
    + rewrite decide_True; [reflexivity | left].
    + rewrite IH. destruct (decide (identifier ∈ those)) as [Hin|Hin].
      * rewrite decide_True; [reflexivity | now right].
      * rewrite decide_False; [reflexivity|]. rewrite elem_of_cons. tauto.
Qed.

(** No profile of the list holds the identifier: the search state is kept. *)
Lemma scan_profiles_miss identifier (l : list (Z * ProfileImpl)) ms :
  Forall (λ kp, identifier ∉ GetIdentifiers kp.2) l →
  ms.1 = false →
  scan_profiles identifier l ms = ms.
Proof.
  induction 1 as [|[k p] l Hk _ IH]; intros Hms; simpl.
  - reflexivity.
  - rewrite scan_identifiers_spec, decide_False by exact Hk.
    rewrite Hms. now apply IH.
Qed.

(** With the flag unset the search stops at the first holder. *)
Lemma scan_profiles_first identifier (pre post : list (Z * ProfileImpl)) k p ms :
  Forall (λ kp, identifier ∉ GetIdentifiers kp.2) pre →
  identifier ∈ GetIdentifiers p →
  ms.1 = false →
  scan_profiles identifier (pre ++ (k, p) :: post) ms = (true, Some k).
Proof.
  induction 1 as [|[k' p'] pre Hk _ IH]; intros Hp Hms; simpl.
  - rewrite scan_identifiers_spec, decide_True by exact Hp. reflexivity.
  - rewrite scan_identifiers_spec, decide_False by exact Hk.
    rewrite Hms. now apply IH.
Qed.

(** With the flag set only the first profile of the iteration is looked at. *)
Lemma scan_profiles_flagged identifier (l : list (Z * ProfileImpl)) ms :
  ms.1 = true →
  scan_profiles identifier l ms
  = match l with
    | (k, p) :: _ => if decide (identifier ∈ GetIdentifiers p) then (true, Some k) else ms
    | [] => ms
    end.
Proof.
  intros Hms. destruct l as [|[k p] l]; simpl; [reflexivity|].
  rewrite scan_identifiers_spec. case_decide; simpl; [reflexivity|].
  now rewrite Hms.
Qed.

Lemma not_held_Forall m identifier :
  ¬ held m identifier →
  Forall (λ kp, identifier ∉ GetIdentifiers kp.2) (map_iter m).
Proof.
  intros Hn. apply Forall_forall. intros [k p] Hin Hid. apply Hn.
  exists k, p. split; [now apply elem_of_map_iter | exact Hid].
Qed.

Lemma search_miss m (identifiers : list ProfileIdentifier) ms :
  (∀ identifier, identifier ∈ identifiers → ¬ held m identifier) →
  ms.1 = false →
  search m identifiers ms = ms.
Proof.
  revert ms. induction identifiers as [|identifier identifiers IH]; intros ms Hn Hms; simpl.
  - reflexivity.
  - rewrite scan_profiles_miss.
    + apply IH; [|exact Hms]. intros x Hx. apply Hn. now right.
    + apply not_held_Forall, Hn. left.
    + exact Hms.
Qed.

(** A set flag stays set, and the profile it names holds an identifier of
    the candidate. *)
Lemma names_holder_weaken m (ids ids' : list ProfileIdentifier) ms :
  ids ⊆ ids' → names_holder m ids ms → names_holder m ids' ms.
Proof.
  intros Hsub (k & p & x & ? & ? & ? & ?). exists k, p, x. set_solver.
Qed.

Lemma search_flagged m (seen identifiers : list ProfileIdentifier) ms :
  names_holder m seen ms →
  names_holder m (seen ++ identifiers) (search m identifiers ms).
Proof.
  revert seen ms. induction identifiers as [|identifier identifiers IH]; intros seen ms Hms.
  - simpl. eapply names_holder_weaken; [|exact Hms]. set_solver.
  - simpl. replace (seen ++ identifier :: identifiers)
      with ((seen ++ [identifier]) ++ identifiers) by now rewrite <- app_assoc.
    apply IH. destruct Hms as (k & p & x & -> & Hk & Hx & Hxp).
    rewrite scan_profiles_flagged by reflexivity.
    destruct (map_iter m) as [|[k0 p0] rest] eqn:Heq.
    + exists k, p, x. set_solver.
    + case_decide as Hid.
      * exists k0, p0, identifier. split_and!; [reflexivity| |set_solver|exact Hid].
        apply elem_of_map_iter. rewrite Heq. left.
      * exists k, p, x. set_solver.
Qed.

Lemma first_holder_split identifier (l : list (Z * ProfileImpl)) :
  Exists (λ kp, identifier ∈ GetIdentifiers kp.2) l →
  ∃ pre post k p, l = pre ++ (k, p) :: post
    ∧ Forall (λ kp, identifier ∉ GetIdentifiers kp.2) pre
    ∧ identifier ∈ GetIdentifiers p.
Proof.
  induction l as [|[k p] l IH]; intros Hex.
  - now apply Exists_nil in Hex.
  - destruct (decide (identifier ∈ GetIdentifiers p)) as [Hin|Hin].
    + exists [], l, k, p. split_and!; [reflexivity | constructor | exact Hin].
    + apply Exists_cons in Hex as [Hex|Hex]; [contradiction|].
      destruct (IH Hex) as (pre & post & k1 & p1 & -> & Hpre & Hp1).
      exists ((k, p) :: pre), post, k1, p1. split_and!; [reflexivity| |exact Hp1].
      constructor; [exact Hin | exact Hpre].
Qed.

Lemma held_Exists m identifier :
  held m identifier ↔ Exists (λ kp, identifier ∈ GetIdentifiers kp.2) (map_iter m).
Proof.
  rewrite Exists_exists. split.
  - intros (k & p & Hk & Hid). exists (k, p). split; [now apply elem_of_map_iter | exact Hid].
  - intros ([k p] & Hin & Hid). exists k, p. split; [now apply elem_of_map_iter | exact Hid].
Qed.

Lemma held_dec m identifier : held m identifier ∨ ¬ held m identifier.
Proof.
  rewrite held_Exists.
  destruct (decide (Exists (λ kp, identifier ∈ GetIdentifiers kp.2) (map_iter m))); auto.
Qed.

(** The outcome of the search: nothing when no identifier of the candidate
    is held, and otherwise a profile that holds one of them. *)
Lemma search_outcome m (identifiers : list ProfileIdentifier) :
  ((∀ identifier, identifier ∈ identifiers → ¬ held m identifier)
   ∧ search m identifiers (false, None) = (false, None))
  ∨ names_holder m identifiers (search m identifiers (false, None)).
Proof.
  assert (∀ seen, (∀ x, x ∈ seen → ¬ held m x) →
    ((∀ x, x ∈ seen ++ identifiers → ¬ held m x)
     ∧ search m identifiers (false, None) = (false, None))
    ∨ names_holder m (seen ++ identifiers) (search m identifiers (false, None))) as Hgen.
  { induction identifiers as [|identifier identifiers IH]; intros seen Hseen.
    - left. rewrite app_nil_r. split; [exact Hseen | reflexivity].
    - replace (seen ++ identifier :: identifiers)
        with ((seen ++ [identifier]) ++ identifiers) by now rewrite <- app_assoc.
      simpl. destruct (held_dec m identifier) as [Hheld|Hnot].
      + right. apply held_Exists, first_holder_split in Hheld
          as (pre & post & k1 & p1 & Heq & Hpre & Hp1).
        rewrite Heq, scan_profiles_first by (auto).
        apply search_flagged. exists k1, p1, identifier. split_and!; [reflexivity| |set_solver|exact Hp1].
        apply elem_of_map_iter. rewrite Heq. set_solver.
      + rewrite scan_profiles_miss by (auto using not_held_Forall).
        apply IH. intros x Hx. apply elem_of_app in Hx as [Hx|Hx]; [now apply Hseen|].
        apply list_elem_of_singleton in Hx as ->. exact Hnot. }
  apply (Hgen []). intros x Hx. now apply elem_of_nil in Hx.
Qed.

End Matching.

(** ** Suggestion ingestion *)

Section Ingestion.

Variable target : arch.
Variable hash_value : ProfileIdentifier → Z.

Local Abbreviation fingerprint := (fingerprint target hash_value).
Local Abbreviation Initialize_callback := (Initialize_callback target hash_value).
Local Abbreviation suggestion_scan := (suggestion_scan target hash_value).
Local Abbreviation suggested := (suggested target hash_value).

Implicit Types (st : ProfileManagerImpl) (m : gmap Z ProfileImpl) (k : Z)
  (p profileImpl : ProfileImpl) (ms : match_state) (identifier : ProfileIdentifier).

Lemma suggestion_scan_match_gen m (identifiers : list ProfileIdentifier)
    (acc : match_state * Z) :
  (fold_left (suggestion_step target hash_value m) identifiers acc).1
  = fold_left (λ ms identifier, scan_profiles identifier (map_iter m) ms) identifiers acc.1.
Proof.
  revert acc. induction identifiers as [|identifier identifiers IH]; intros acc; simpl.
  - reflexivity.
  - rewrite IH. reflexivity.
Qed.

Lemma suggestion_scan_search m (identifiers : list ProfileIdentifier) :
  (suggestion_scan m identifiers).1 = search m identifiers (false, None).
Proof. unfold ProfileManager.suggestion_scan. now rewrite suggestion_scan_match_gen. Qed.

Lemma alter_lookup_insert m k p (f : ProfileImpl → ProfileImpl) :
  m !! k = Some p → alter f k m = <[k := f p]> m.
Proof.
  intros Hk. apply map_eq. intros k'. rewrite lookup_alter, lookup_insert.
  case_decide as Hkk'; [subst k'; now rewrite Hk | reflexivity].
Qed.

Lemma suggestion_scan_eq m (identifiers : list ProfileIdentifier) :
  ∃ hashKey, suggestion_scan m identifiers = (search m identifiers (false, None), hashKey)
    ∧ Z.land hashKey UINT32_MAX = fingerprint identifiers.
Proof.
  exists (suggestion_scan m identifiers).2. split.
  - rewrite <- suggestion_scan_search. now destruct (suggestion_scan m identifiers).
  - apply suggestion_scan_hashKey.
Qed.

Lemma SetInternalIdentifier_suggested profileImpl :
  SetInternalIdentifier (fingerprint (GetIdentifiers profileImpl)) (SetIsSuggestion true profileImpl)
  = suggested profileImpl.
Proof.
  unfold SetInternalIdentifier, suggested. simpl. now rewrite uint32_wrap_fingerprint.
Qed.

(** No stored profile holds an identifier of the candidate: it is stored
    under its fingerprint and appended to the enumeration. *)
Lemma Initialize_callback_new st profileImpl :
  (∀ identifier, identifier ∈ GetIdentifiers profileImpl → ¬ held (m_profiles st) identifier) →
  Initialize_callback profileImpl st
  = {| m_identityProviders := m_identityProviders st;
       m_profiles := <[fingerprint (GetIdentifiers profileImpl) := suggested profileImpl]> (m_profiles st);
       m_profileIndices := m_profileIndices st ++ [fingerprint (GetIdentifiers profileImpl)] |}.
Proof.
  intros Hnone. unfold ProfileManager.Initialize_callback.
  destruct (suggestion_scan_eq (m_profiles st) (GetIdentifiers profileImpl)) as (h & -> & ->).
  rewrite search_miss by (auto). simpl.
  rewrite SetInternalIdentifier_suggested. unfold store_profile.
  now rewrite uint32_wrap_fingerprint.
Qed.

(** The search names a profile: its display data is overwritten and nothing
    else changes. *)
Lemma Initialize_callback_merge st profileImpl k p :
  search (m_profiles st) (GetIdentifiers profileImpl) (false, None) = (true, Some k) →
  m_profiles st !! k = Some p →
  Initialize_callback profileImpl st
  = {| m_identityProviders := m_identityProviders st;
       m_profiles := <[k := redisplayed profileImpl p]> (m_profiles st);
       m_profileIndices := m_profileIndices st |}.
Proof.
  intros Hsearch Hk. unfold ProfileManager.Initialize_callback.
  destruct (suggestion_scan_eq (m_profiles st) (GetIdentifiers profileImpl)) as (h & -> & ->).
  rewrite Hsearch. simpl. f_equal.
  now rewrite (alter_lookup_insert _ _ p).
Qed.

Lemma search_keep m (identifiers : list ProfileIdentifier) k :
  (∀ k0 p0 rest, map_iter m = (k0, p0) :: rest →
     ∀ identifier, identifier ∈ identifiers → identifier ∉ GetIdentifiers p0) →
  search m identifiers (true, Some k) = (true, Some k).
Proof.
  induction identifiers as [|identifier identifiers IH]; intros Hhead; simpl.
  - reflexivity.
  - rewrite scan_profiles_flagged by reflexivity.
    destruct (map_iter m) as [|[k0 p0] rest] eqn:Heq.
    + apply IH. intros ? ? ? [=].
    + rewrite decide_False.
      * apply IH. intros k1 p1 rest1 [= -> -> ->] x Hx. eapply Hhead; [reflexivity | now right].
      * eapply Hhead; [reflexivity | left].
Qed.

(** The search settles on the least key among the holders of the first held
    identifier, unless the first profile of the map holds a later one. *)
Lemma search_selected m (A B : list ProfileIdentifier) identifier k p :
  (∀ a, a ∈ A → ¬ held m a) →
  m !! k = Some p →
  identifier ∈ GetIdentifiers p →
  (∀ k' p', m !! k' = Some p' → identifier ∈ GetIdentifiers p' → k ≤ k') →
  (∀ k0 p0, m !! k0 = Some p0 → (∀ k', is_Some (m !! k') → k0 ≤ k') →
     ∀ b, b ∈ B → b ∉ GetIdentifiers p0) →
  search m (A ++ identifier :: B) (false, None) = (true, Some k).
Proof.
  intros HA Hk Hid Hleast Hhead.
  unfold search. rewrite fold_left_app. fold (search m A (false, None)).
  rewrite search_miss by (auto). simpl.
  destruct (map_iter_split _ _ _ Hk) as (pre & post & Heq & Hpre).
  rewrite Heq, scan_profiles_first; [| |exact Hid|reflexivity].
  - rewrite <- Heq. fold (search m B (true, Some k)).
    apply search_keep. intros k0 p0 rest Hiter. apply (Hhead k0 p0).
    + apply elem_of_map_iter. rewrite Hiter. left.
    + intros k'. now apply (map_iter_head _ _ _ _ _ Hiter).
  - apply Forall_forall. intros [k' p'] Hin Hheld.
    rewrite Forall_forall in Hpre. specialize (Hpre _ Hin). simpl in Hpre.
    assert (k ≤ k'); [|lia]. apply (Hleast k' p'); [|exact Hheld].
    apply elem_of_map_iter. rewrite Heq. apply elem_of_app. now left.
Qed.

(** Once a profile is matched, the later identifiers are compared with the
    first profile of the iteration alone. *)
Lemma search_from_match m (B : list ProfileIdentifier) k :
  search m B (true, Some k)
  = (true, Some match map_iter m with
               | (k0, p0) :: _ =>
                   if bool_decide (Exists (λ b, b ∈ GetIdentifiers p0) B) then k0 else k
               | [] => k
               end).
Proof.
  unfold search. destruct (map_iter m) as [|[k0 p0] rest].
  - induction B as [|b B IH]; simpl; [reflexivity | exact IH].
  - revert k. induction B as [|b B IH]; intros k; cbn [fold_left].
    + reflexivity.
    + rewrite scan_profiles_flagged by reflexivity.
      destruct (decide (b ∈ GetIdentifiers p0)) as [Hb|Hb]; rewrite IH.
      * rewrite (bool_decide_eq_true_2 (Exists _ (b :: B))) by now left.
        now destruct (bool_decide _).
      * destruct (decide (Exists (λ b, b ∈ GetIdentifiers p0) B)) as [HB|HB].
        -- rewrite !bool_decide_eq_true_2; [reflexivity | now right | exact HB].
        -- rewrite !bool_decide_eq_false_2; [reflexivity | | exact HB].
           rewrite Exists_cons. tauto.
Qed.


(** C7. When a stored profile shares an identifier with the candidate, the
    callback inserts nothing: the enumeration and the keys of the store are
    as before, and a single stored profile, one that shares an identifier
    with the candidate, has its display name and tile URI replaced by the
    candidate's while its identifiers, its suggestion flag and its
    fingerprint stay. *)
Theorem merge_overwrites_display_only st profileImpl :
  (∃ k p, m_profiles st !! k = Some p ∧ shares_identifier profileImpl p) →
  ∃ k p, m_profiles st !! k = Some p ∧ shares_identifier profileImpl p
    ∧ Initialize_callback profileImpl st
      = {| m_identityProviders := m_identityProviders st;
           m_profiles :=
             <[k := {| GetDisplayName := GetDisplayName profileImpl;
                       GetTileURI := GetTileURI profileImpl;
                       GetIdentifiers := GetIdentifiers p;
                       IsSuggestion := IsSuggestion p;
                       GetInternalIdentifier := GetInternalIdentifier p |}]> (m_profiles st);
           m_profileIndices := m_profileIndices st |}
    ∧ dom (m_profiles (Initialize_callback profileImpl st)) = dom (m_profiles st)
    ∧ GetNumProfiles (Initialize_callback profileImpl st) = GetNumProfiles st.
Proof.
  intros (k0 & p0 & Hk0 & x & Hx & Hxp0).
  destruct (search_outcome (m_profiles st) (GetIdentifiers profileImpl))
    as [[Hnone _] | (k & p & y & Hsearch & Hk & Hy & Hyp)].
  - exfalso. apply (Hnone x Hx). exists k0, p0. auto.
  - exists k, p. pose proof (Initialize_callback_merge _ _ _ _ Hsearch Hk) as Heq.
    split_and!.
    + exact Hk.
    + exists y. auto.
    + exact Heq.
    + rewrite Heq. simpl. rewrite dom_insert_L.
      apply subseteq_union_1_L, singleton_subseteq_l, elem_of_dom. eauto.
    + now rewrite Heq.
Qed.

Lemma held_singleton k p identifier :
  held {[k := p]} identifier ↔ identifier ∈ GetIdentifiers p.
Proof.
  split.
  - intros (k' & p' & Hk' & Hid). apply lookup_singleton_Some in Hk' as [_ <-]. exact Hid.
  - intros Hid. exists k, p. split; [apply lookup_singleton_eq | exact Hid].
Qed.

Lemma Initialize_callback_first profileImpl :
  Initialize_callback profileImpl new_ProfileManagerImpl
  = {| m_identityProviders := ∅;
       m_profiles := {[fingerprint (GetIdentifiers profileImpl) := suggested profileImpl]};
       m_profileIndices := [fingerprint (GetIdentifiers profileImpl)] |}.
Proof.
  rewrite Initialize_callback_new; [reflexivity|].
  intros x _ (k & p & Hk & _). simpl in Hk. now rewrite lookup_empty in Hk.
Qed.

(** Two candidates without a common identifier whose fingerprints are equal:
    the second takes the place of the first under their key, which the
    enumeration then lists twice. *)
Lemma two_suggestions_collide profileImpl1 profileImpl2 :
  let st := Initialize_callback profileImpl2
              (Initialize_callback profileImpl1 new_ProfileManagerImpl) in
  (∀ identifier, identifier ∈ GetIdentifiers profileImpl1 →
     identifier ∉ GetIdentifiers profileImpl2) →
  fingerprint (GetIdentifiers profileImpl1) = fingerprint (GetIdentifiers profileImpl2) →
  GetNumProfiles st = 2%nat
  ∧ m_profiles st = {[fingerprint (GetIdentifiers profileImpl2) := suggested profileImpl2]}
  ∧ GetProfile st 0 = Some (suggested profileImpl2)
  ∧ GetProfile st 1 = Some (suggested profileImpl2).
Proof.
  intros st Hdisj Heq. subst st. rewrite Initialize_callback_first, Initialize_callback_new.
  - rewrite Heq. unfold GetNumProfiles, GetProfile. simpl. rewrite insert_singleton_eq.
    split_and!; try reflexivity; now rewrite lookup_singleton_eq.
  - simpl. intros x Hx Hheld. apply held_singleton in Hheld. simpl in Hheld.
    now apply (Hdisj x).
Qed.

(** C8. Two candidates are handed to the callback of an empty manager.
    When they have no identifier in common and their fingerprints differ,
    the store ends with two entries, one per candidate, enumerated in the
    order of arrival.  When they have an identifier in common, the store
    ends with the single entry of the first candidate, showing the display
    name and tile URI of the second. *)
Theorem two_suggestions profileImpl1 profileImpl2 :
  let h1 := fingerprint (GetIdentifiers profileImpl1) in
  let h2 := fingerprint (GetIdentifiers profileImpl2) in
  let st := Initialize_callback profileImpl2
              (Initialize_callback profileImpl1 new_ProfileManagerImpl) in
  ((∀ identifier, identifier ∈ GetIdentifiers profileImpl1 →
      identifier ∉ GetIdentifiers profileImpl2) →
   h1 ≠ h2 →
   GetNumProfiles st = 2%nat
   ∧ m_profileIndices st = [h1; h2]
   ∧ m_profiles st = <[h2 := suggested profileImpl2]> {[h1 := suggested profileImpl1]}
   ∧ size (m_profiles st) = 2%nat
   ∧ GetProfile st 0 = Some (suggested profileImpl1)
   ∧ GetProfile st 1 = Some (suggested profileImpl2))
  ∧ (shares_identifier profileImpl1 profileImpl2 →
     GetNumProfiles st = 1%nat
     ∧ m_profileIndices st = [h1]
     ∧ m_profiles st = {[h1 := redisplayed profileImpl2 (suggested profileImpl1)]}
     ∧ GetProfile st 0 = Some (redisplayed profileImpl2 (suggested profileImpl1))).
Proof.
  intros h1 h2 st. subst st. rewrite Initialize_callback_first. fold h1. split.
  - intros Hdisj Hne. rewrite Initialize_callback_new.
    + fold h2. unfold GetNumProfiles, GetProfile. simpl. split_and!; try reflexivity.
      * rewrite map_size_insert_None, map_size_singleton; [reflexivity|].
        now apply lookup_singleton_ne.
      * rewrite lookup_insert_ne by (intros Heq; now apply Hne). now rewrite lookup_singleton_eq.
      * now rewrite lookup_insert_eq.
    + simpl. intros x Hx Hheld. apply held_singleton in Hheld. simpl in Hheld.
      now apply (Hdisj x).
  - intros (x & Hx1 & Hx2).
    destruct (search_outcome {[h1 := suggested profileImpl1]} (GetIdentifiers profileImpl2))
      as [[Hnone _] | (k & p & y & Hsearch & Hk & Hy & Hyp)].
    + exfalso. apply (Hnone x Hx2). apply held_singleton. exact Hx1.
    + apply lookup_singleton_Some in Hk as [<- <-].
      rewrite (Initialize_callback_merge _ _ h1 (suggested profileImpl1)).
      * unfold GetNumProfiles, GetProfile. simpl. rewrite insert_singleton_eq.
        split_and!; try reflexivity. now rewrite lookup_singleton_eq.
      * exact Hsearch.
      * apply lookup_singleton_eq.
Qed.

End Ingestion.

(** ** The persisted document *)

Section Persistence.

Variable target : arch.
Variable hash_value : ProfileIdentifier → Z.

Local Abbreviation fingerprint := (fingerprint target hash_value).
Local Abbreviation hash_step := (hash_step target hash_value).
Local Abbreviation profile_of_entry := (profile_of_entry target hash_value).
Local Abbreviation ParseStoredProfiles_identifier := (ParseStoredProfiles_identifier target hash_value).
Local Abbreviation ParseStoredProfiles_profile := (ParseStoredProfiles_profile target hash_value).
Local Abbreviation ParseStoredProfiles := (ParseStoredProfiles target hash_value).
Local Abbreviation Initialize_callback := (Initialize_callback target hash_value).
Local Abbreviation consistent := (consistent target hash_value).
Local Abbreviation reachable := (reachable target hash_value).
Local Abbreviation reloaded := (reloaded target hash_value).

Implicit Types (st : ProfileManagerImpl) (m : gmap Z ProfileImpl) (k : Z)
  (p profileImpl : ProfileImpl) (v : json).

Lemma ParseStoredProfiles_identifier_spec (acc : list ProfileIdentifier * Z) v :
  ParseStoredProfiles_identifier acc v
  = match identifier_of_pair v with
    | Some identifier => (acc.1 ++ [identifier], hash_step acc.2 identifier)
    | None => acc
    end.
Proof.
  destruct v as [| | | |[|a [|b [|c l]]]|]; try reflexivity.
  - destruct a; reflexivity.
  - destruct a; try reflexivity; destruct b; reflexivity.
  - destruct a; try reflexivity; destruct b; reflexivity.
Qed.

Lemma parse_identifiers_fold (pairs : list json) (acc : list ProfileIdentifier * Z) :
  fold_left ParseStoredProfiles_identifier pairs acc
  = (acc.1 ++ omap identifier_of_pair pairs,
     fold_left hash_step (omap identifier_of_pair pairs) acc.2).
Proof.
  revert acc. induction pairs as [|v pairs IH]; intros [ids h]; simpl.
  - now rewrite app_nil_r.
  - rewrite IH, ParseStoredProfiles_identifier_spec.
    destruct (identifier_of_pair v) as [identifier|]; simpl; [|reflexivity].
    now rewrite <- app_assoc.
Qed.

(** What the function applied to an entry does, by the entry. *)
Lemma ParseStoredProfiles_profile_spec st v :
  ParseStoredProfiles_profile st v
  = match profile_of_entry v with
    | Some profile => inserted profile st
    | None => st
    end.
Proof.
  unfold ProfileManager.ParseStoredProfiles_profile, ProfileManager.profile_of_entry.
  destruct v as [| | | | |members]; try reflexivity. simpl.
  destruct (find_member "displayName" members) as [[| | |name| |]|]; try reflexivity.
  simpl. destruct (find_member "tileUri" members) as [[| | |uri| |]|]; try reflexivity.
  simpl. destruct (find_member "identifiers" members) as [[| | | |pairs|]|]; try reflexivity.
  simpl. rewrite parse_identifiers_fold. simpl.
  unfold store_profile, inserted, SetIdentifiers, SetInternalIdentifier. simpl.
  rewrite uint32_wrap_land, hash_fold_fingerprint. reflexivity.
Qed.

Lemma ParseStoredProfiles_profiles_fold (profiles : list json) st :
  fold_left ParseStoredProfiles_profile profiles st
  = fold_left (λ st profile, inserted profile st) (omap profile_of_entry profiles) st.
Proof.
  revert st. induction profiles as [|v profiles IH]; intros st; simpl.
  - reflexivity.
  - rewrite IH, ParseStoredProfiles_profile_spec.
    destruct (ProfileManager.profile_of_entry target hash_value v); reflexivity.
Qed.

Lemma inserted_fold_indices (l : list ProfileImpl) st :
  m_profileIndices (fold_left (λ st profile, inserted profile st) l st)
  = m_profileIndices st ++ (GetInternalIdentifier <$> l).
Proof.
  revert st. induction l as [|p l IH]; intros st; simpl.
  - now rewrite app_nil_r.
  - rewrite IH. simpl. now rewrite <- app_assoc.
Qed.

(** C4. Loading a document whose ["profiles"] member is an array: an entry
    that is not an object, or lacks a string ["displayName"], a string
    ["tileUri"] or an array ["identifiers"], leaves the store as it is; any
    other entry is inserted under the fingerprint of its well-formed
    identifier pairs, each string of a pair taken up to its first NUL, the
    malformed pairs alone being dropped; and the load as a whole inserts
    exactly the entries of the second kind, in document order, whatever
    their siblings are. *)
Theorem load_skips_malformed_entries (document : json) (profiles : list json) st :
  IsObject document = true →
  FindMember "profiles" document = Some (JArray profiles) →
  (∀ st' v, profile_of_entry v = None → ParseStoredProfiles_profile st' v = st')
  ∧ (∀ st' v name uri pairs,
       IsObject v = true →
       FindMember "displayName" v = Some (JString name) →
       FindMember "tileUri" v = Some (JString uri) →
       FindMember "identifiers" v = Some (JArray pairs) →
       let identifiers := omap identifier_of_pair pairs in
       ParseStoredProfiles_profile st' v
       = inserted {| GetDisplayName := name; GetTileURI := uri;
                     GetIdentifiers := identifiers; IsSuggestion := false;
                     GetInternalIdentifier := fingerprint identifiers |} st')
  ∧ ParseStoredProfiles (Some document) st
    = fold_left (λ st profile, inserted profile st) (omap profile_of_entry profiles) st
  ∧ m_profileIndices (ParseStoredProfiles (Some document) st)
    = m_profileIndices st ++ (GetInternalIdentifier <$> omap profile_of_entry profiles)
  ∧ (∀ v profile, v ∈ profiles → profile_of_entry v = Some profile →
       is_Some (m_profiles (ParseStoredProfiles (Some document) st)
                  !! GetInternalIdentifier profile)).
Proof.
  intros Hobj Hmember.
  assert (ParseStoredProfiles (Some document) st
          = fold_left (λ st profile, inserted profile st) (omap profile_of_entry profiles) st)
    as Hload.
  { unfold ProfileManager.ParseStoredProfiles. rewrite Hobj, Hmember. simpl.
    apply ParseStoredProfiles_profiles_fold. }
  split_and!.
  - intros st' v Hv. now rewrite ParseStoredProfiles_profile_spec, Hv.
  - intros st' v name uri pairs Hv Hname Huri Hids identifiers.
    rewrite ParseStoredProfiles_profile_spec. destruct v; try discriminate.
    simpl in *. now rewrite Hname, Huri, Hids.
  - exact Hload.
  - rewrite Hload. apply inserted_fold_indices.
  - intros v profile Hv Hprofile. rewrite Hload.
    assert (profile ∈ omap profile_of_entry profiles) as Hin.
    { apply list_elem_of_omap. eauto. }
    clear Hload Hv Hprofile Hobj Hmember. revert st.
    induction (omap profile_of_entry profiles) as [|q l IH]; intros st.
    + now apply elem_of_nil in Hin.
    + simpl. apply elem_of_cons in Hin as [->|Hin]; [|now apply IH].
      clear IH. assert (is_Some (m_profiles (inserted q st) !! GetInternalIdentifier q)) as Hq.
      { simpl. rewrite lookup_insert_eq. eauto. }
      revert Hq. generalize (inserted q st). induction l as [|q' l IH]; intros st' Hq.
      * exact Hq.
      * simpl. apply IH. simpl. rewrite lookup_insert. case_decide; eauto.
Qed.

(** *** Every stored profile sits under its fingerprint *)

Lemma consistent_new : consistent new_ProfileManagerImpl.
Proof.
  split.
  - intros k p Hk. simpl in Hk. now rewrite lookup_empty in Hk.
  - intros k. simpl. rewrite lookup_empty. split.
    + intros Hk. now apply elem_of_nil in Hk.
    + intros [? [=]].
Qed.

Lemma consistent_inserted p st :
  GetInternalIdentifier p = fingerprint (GetIdentifiers p) →
  consistent st → consistent (inserted p st).
Proof.
  intros Hp [Hkeys Hidx]. split.
  - intros k q. simpl. rewrite lookup_insert. case_decide as Hk.
    + intros [= <-]. subst k. auto.
    + apply Hkeys.
  - intros k. simpl. rewrite elem_of_app, list_elem_of_singleton, Hidx, lookup_insert.
    case_decide as Hk.
    + subst k. split; eauto.
    + split; [intros [?|?]; [assumption | congruence] | auto].
Qed.

Lemma profile_of_entry_fingerprint v p :
  profile_of_entry v = Some p →
  GetInternalIdentifier p = fingerprint (GetIdentifiers p).
Proof.
  unfold ProfileManager.profile_of_entry. destruct v as [| | | | |members]; try discriminate.
  destruct (find_member "displayName" members) as [[| | |name| |]|]; try discriminate.
  destruct (find_member "tileUri" members) as [[| | |uri| |]|]; try discriminate.
  destruct (find_member "identifiers" members) as [[| | | |pairs|]|]; try discriminate.
  now intros [= <-].
Qed.

Lemma consistent_inserted_fold (l : list ProfileImpl) st :
  Forall (λ p, GetInternalIdentifier p = fingerprint (GetIdentifiers p)) l →
  consistent st →
  consistent (fold_left (λ st profile, inserted profile st) l st).
Proof.
  intros Hl. revert st. induction Hl as [|p l Hp _ IH]; intros st Hst; simpl.
  - exact Hst.
  - apply IH. now apply consistent_inserted.
Qed.

Lemma ParseStoredProfiles_cases (document : option json) st :
  ParseStoredProfiles document st = st
  ∨ ∃ profiles, ParseStoredProfiles document st
      = fold_left (λ st profile, inserted profile st) (omap profile_of_entry profiles) st.
Proof.
  unfold ProfileManager.ParseStoredProfiles. destruct document as [document|]; [|now left].
  destruct (IsObject document); [|now left].
  destruct (FindMember "profiles" document) as [profiles|]; [|now left].
  destruct profiles as [| | | |profiles|]; try (now left).
  right. exists profiles. simpl. apply ParseStoredProfiles_profiles_fold.
Qed.

Lemma consistent_parse (document : option json) st :
  consistent st → consistent (ParseStoredProfiles document st).
Proof.
  intros Hst. destruct (ParseStoredProfiles_cases document st) as [->|[profiles ->]];
    [exact Hst|].
  apply consistent_inserted_fold; [|exact Hst].
  apply Forall_forall. intros p Hp. apply list_elem_of_omap in Hp as (v & _ & Hv).
  now apply (profile_of_entry_fingerprint v).
Qed.

Lemma consistent_callback profileImpl st :
  consistent st → consistent (Initialize_callback profileImpl st).
Proof.
  intros Hst.
  destruct (search_outcome (m_profiles st) (GetIdentifiers profileImpl))
    as [[Hnone _] | (k & p & y & Hsearch & Hk & _)].
  - rewrite Initialize_callback_new by exact Hnone.
    apply (consistent_inserted (suggested target hash_value profileImpl) st); [reflexivity | exact Hst].
  - rewrite (Initialize_callback_merge _ _ _ _ _ _ Hsearch Hk).
    destruct Hst as [Hkeys Hidx]. split.
    + intros k' q. simpl. rewrite lookup_insert. case_decide as Hkk.
      * intros [= <-]. subst k'. simpl. now apply Hkeys.
      * apply Hkeys.
    + intros k'. simpl. rewrite Hidx, lookup_insert. case_decide as Hkk; [|reflexivity].
      subst k'. rewrite Hk. split; eauto.
Qed.

Lemma reachable_consistent st : reachable st → consistent st.
Proof.
  induction 1 as [|st provider _ IH|st document _ IH|st profileImpl _ IH].
  - apply consistent_new.
  - exact IH.
  - now apply consistent_parse.
  - now apply consistent_callback.
Qed.

(** C2. Whatever created a stored profile, the callback of [Initialize] or
    the load of a persisted document, its fingerprint is the XOR over its
    identifiers of three times the content hash, masked to 32 bits, and it
    is the key the profile is stored under; so two stored profiles whose
    identifier sequences are permutations of each other carry the same
    fingerprint, whichever path created each. *)
Theorem fingerprint_assigned_on_both_paths st st' k k' p p' :
  reachable st → reachable st' →
  m_profiles st !! k = Some p →
  m_profiles st' !! k' = Some p' →
  (GetInternalIdentifier p = fingerprint (GetIdentifiers p) ∧ k = GetInternalIdentifier p)
  ∧ (GetIdentifiers p ≡ₚ GetIdentifiers p' →
     GetInternalIdentifier p = GetInternalIdentifier p' ∧ k = k').
Proof.
  intros Hst Hst' Hk Hk'.
  destruct (reachable_consistent _ Hst) as [Hkeys _].
  destruct (reachable_consistent _ Hst') as [Hkeys' _].
  destruct (Hkeys _ _ Hk) as [Hfp Hid]. destruct (Hkeys' _ _ Hk') as [Hfp' Hid'].
  split; [split; congruence|].
  intros Hperm. apply (fingerprint_Permutation target hash_value) in Hperm.
  split; congruence.
Qed.

(** *** Saving and loading again *)

Lemma identifier_of_pair_value (identifiers : list ProfileIdentifier) :
  omap identifier_of_pair (identifier_value <$> identifiers) = cut_identifier <$> identifiers.
Proof.
  induction identifiers as [|[key value] identifiers IH]; csimpl; [reflexivity|].
  rewrite IH. unfold cut_identifier. simpl. now rewrite !c_str_idemp.
Qed.

Lemma profile_of_entry_data p :
  profile_of_entry (profile_data p)
  = Some {| GetDisplayName := GetDisplayName p; GetTileURI := GetTileURI p;
            GetIdentifiers := cut_identifier <$> GetIdentifiers p; IsSuggestion := false;
            GetInternalIdentifier := fingerprint (cut_identifier <$> GetIdentifiers p) |}.
Proof.
  unfold ProfileManager.profile_of_entry, profile_data. simpl.
  now rewrite identifier_of_pair_value.
Qed.

Lemma inserted_fold_profiles (l : list (Z * ProfileImpl)) (f : ProfileImpl → ProfileImpl) st :
  NoDup l.*1 →
  Forall (λ kp, GetInternalIdentifier (f kp.2) = kp.1) l →
  ∀ k, m_profiles (fold_left (λ st profile, inserted profile st) ((λ kp, f kp.2) <$> l) st) !! k
       = match (list_to_map l : gmap Z ProfileImpl) !! k with
         | Some p => Some (f p)
         | None => m_profiles st !! k
         end.
Proof.
  revert st. induction l as [|[k0 p0] l IH]; intros st Hnd Hkeys k.
  - simpl. now rewrite lookup_empty.
  - rewrite fmap_cons in Hnd. apply NoDup_cons in Hnd as [Hk0 Hnd].
    apply Forall_cons in Hkeys as [Hp0 Hkeys]. simpl in Hp0.
    simpl in Hk0. simpl. rewrite IH by assumption. simpl. rewrite Hp0, !lookup_insert.
    case_decide as Hk.
    + subst k. now rewrite (not_elem_of_list_to_map_1 _ _ Hk0).
    + reflexivity.
Qed.

Lemma omap_fmap_Some {A B C : Type} (f : B → option C) (g : A → B) (h : A → C)
    (l : list A) :
  (∀ x, f (g x) = Some (h x)) → omap f (g <$> l) = h <$> l.
Proof.
  intros Hfg. induction l as [|x l IH]; csimpl; [reflexivity|].
  now rewrite Hfg, IH.
Qed.

Lemma ParseStoredProfiles_document (profiles : list json) st :
  ParseStoredProfiles (Some (JObject [("profiles", JArray profiles)])) st
  = fold_left (λ st profile, inserted profile st) (omap profile_of_entry profiles) st.
Proof. apply ParseStoredProfiles_profiles_fold. Qed.

Lemma list_to_map_iter m : list_to_map (map_iter m) = m.
Proof.
  rewrite <- (list_to_map_to_list m) at 2.
  apply list_to_map_proper; [apply map_iter_NoDup | apply map_iter_Permutation].
Qed.

Lemma ProfileManagerImpl_eq st st' :
  m_identityProviders st = m_identityProviders st' →
  m_profiles st = m_profiles st' →
  m_profileIndices st = m_profileIndices st' →
  st = st'.
Proof. destruct st, st'. simpl. now intros -> -> ->. Qed.

Lemma inserted_fold_providers (l : list ProfileImpl) st :
  m_identityProviders (fold_left (λ st profile, inserted profile st) l st)
  = m_identityProviders st.
Proof.
  revert st. induction l as [|p l IH]; intros st; simpl; [reflexivity|]. now rewrite IH.
Qed.

(** The profile an entry of the saved document is loaded as: its
    identifiers have gone through [const char*] twice. *)
Lemma reloaded_fold st :
  reloaded st
  = fold_left (λ st profile, inserted profile st)
      ((λ kp : Z * ProfileImpl,
          {| GetDisplayName := GetDisplayName kp.2; GetTileURI := GetTileURI kp.2;
             GetIdentifiers := cut_identifier <$> GetIdentifiers kp.2; IsSuggestion := false;
             GetInternalIdentifier := fingerprint (cut_identifier <$> GetIdentifiers kp.2) |})
         <$> map_iter (m_profiles st))
      new_ProfileManagerImpl.
Proof.
  unfold ProfileManager.reloaded, UpdateStoredProfiles.
  rewrite ParseStoredProfiles_document.
  now rewrite (omap_fmap_Some _ _
                 (λ kp : Z * ProfileImpl,
                    {| GetDisplayName := GetDisplayName kp.2; GetTileURI := GetTileURI kp.2;
                       GetIdentifiers := cut_identifier <$> GetIdentifiers kp.2;
                       IsSuggestion := false;
                       GetInternalIdentifier :=
                         fingerprint (cut_identifier <$> GetIdentifiers kp.2) |}))
    by (intros [k0 p0]; apply profile_of_entry_data).
Qed.

(** The store a consistent store without NUL in its identifiers is loaded
    back as. *)
Lemma reloaded_store st :
  consistent st →
  nul_free_identifiers st →
  reloaded st
  = {| m_identityProviders := ∅;
       m_profiles := SetIsSuggestion false <$> m_profiles st;
       m_profileIndices := (map_iter (m_profiles st)).*1 |}.
Proof.
  intros [Hkeys _] Hnul.
  assert (∀ k p, m_profiles st !! k = Some p →
            cut_identifier <$> GetIdentifiers p = GetIdentifiers p) as Hcut.
  { intros k p Hk. apply cut_identifiers_id. intros x Hx. now apply (Hnul k p). }
  rewrite reloaded_fold. apply ProfileManagerImpl_eq.
  - now rewrite inserted_fold_providers.
  - simpl. apply map_eq. intros k.
    rewrite (inserted_fold_profiles (map_iter (m_profiles st))
               (λ p, {| GetDisplayName := GetDisplayName p; GetTileURI := GetTileURI p;
                        GetIdentifiers := cut_identifier <$> GetIdentifiers p;
                        IsSuggestion := false;
                        GetInternalIdentifier :=
                          fingerprint (cut_identifier <$> GetIdentifiers p) |})).
    + rewrite list_to_map_iter, lookup_fmap. simpl. rewrite lookup_empty.
      destruct (m_profiles st !! k) as [p|] eqn:Hk; [|reflexivity]. simpl.
      destruct (Hkeys _ _ Hk) as [Hfp Hid]. unfold SetIsSuggestion.
      now rewrite (Hcut _ _ Hk), <- Hfp, Hid.
    + apply map_iter_NoDup.
    + apply Forall_forall. intros [k0 p0] Hin. simpl.
      apply elem_of_map_iter in Hin. rewrite (Hcut _ _ Hin). now destruct (Hkeys _ _ Hin).
  - rewrite inserted_fold_indices. simpl. rewrite <- list_fmap_compose.
    apply list_fmap_ext. intros i [k0 p0] Hin. simpl.
    apply list_elem_of_lookup_2, elem_of_map_iter in Hin.
    rewrite (Hcut _ _ Hin). now destruct (Hkeys _ _ Hin).
Qed.

(** C5. For every state the manager reaches in which no identifier of a
    stored profile holds a NUL, loading the document it saves into a new
    manager gives back the same profiles: the same keys, and under each key
    a profile with the same fingerprint, identifier sequence, display name
    and tile URI (the suggestion flag is not part of the document and is
    clear after the load).  The enumeration of the loaded store lists these
    keys once each, in the order the profile map is iterated: the count is
    the number of stored profiles, never more than before, and the same as
    before when no key was enumerated twice. *)
Theorem save_then_load st :
  reachable st →
  nul_free_identifiers st →
  m_profiles (reloaded st) = SetIsSuggestion false <$> m_profiles st
  ∧ dom (m_profiles (reloaded st)) = dom (m_profiles st)
  ∧ (∀ k p, m_profiles st !! k = Some p →
       ∃ p', m_profiles (reloaded st) !! k = Some p'
         ∧ GetInternalIdentifier p' = GetInternalIdentifier p
         ∧ GetIdentifiers p' = GetIdentifiers p
         ∧ GetDisplayName p' = GetDisplayName p
         ∧ GetTileURI p' = GetTileURI p)
  ∧ (∀ k, k ∈ m_profileIndices (reloaded st) ↔ k ∈ m_profileIndices st)
  ∧ m_profileIndices (reloaded st) = (map_iter (m_profiles st)).*1
  ∧ NoDup (m_profileIndices (reloaded st))
  ∧ GetNumProfiles (reloaded st) = size (m_profiles st)
  ∧ (GetNumProfiles (reloaded st) ≤ GetNumProfiles st)%nat
  ∧ (NoDup (m_profileIndices st) → GetNumProfiles (reloaded st) = GetNumProfiles st).
Proof.
  intros Hst Hnul. pose proof (reachable_consistent _ Hst) as Hcons.
  rewrite (reloaded_store st Hcons Hnul). unfold GetNumProfiles. simpl.
  destruct Hcons as [Hkeys Hidx].
  assert (∀ k, k ∈ (map_iter (m_profiles st)).*1 ↔ k ∈ m_profileIndices st) as Hsame.
  { intros k. now rewrite elem_of_map_iter_keys, elem_of_dom, Hidx. }
  split_and!.
  - reflexivity.
  - apply dom_fmap_L.
  - intros k p Hk. exists (SetIsSuggestion false p). rewrite lookup_fmap, Hk. auto.
  - exact Hsame.
  - reflexivity.
  - apply map_iter_NoDup.
  - now rewrite length_fmap, map_iter_length.
  - apply submseteq_length, NoDup_submseteq; [apply map_iter_NoDup|].
    intros k Hk. now apply Hsame.
  - intros Hnd. apply Permutation_length, NoDup_Permutation;
      [apply map_iter_NoDup | exact Hnd | exact Hsame].
Qed.

(** *** Discovery order plays no part in the selection *)

(** Two profiles are loaded, the one holding [x] before the one holding
    [y], and the fingerprint of the second is the smaller.  For a candidate
    holding [y] and then [x] the callback selects the second profile, though
    the first one, which shares [x], precedes it in the enumeration.  This
    holds whatever the content hash is, for identifiers without NUL. *)
Lemma discovery_order_ignored (x y : ProfileIdentifier) :
  cut_identifier x = x →
  cut_identifier y = y →
  x ≠ y →
  fingerprint [y] < fingerprint [x] →
  let st := ParseStoredProfiles
              (Some (JObject [("profiles", JArray [stored_entry "X" "tile-x" [x];
                                                   stored_entry "Y" "tile-y" [y]])]))
              new_ProfileManagerImpl in
  let c := candidate "suggested" "tile-s" [y; x] in
  m_profileIndices st = [fingerprint [x]; fingerprint [y]]
  ∧ (suggestion_scan target hash_value (m_profiles st) (GetIdentifiers c)).1
    = (true, Some (fingerprint [y]))
  ∧ first_match_in_discovery_order st c = Some (fingerprint [x]).
Proof.
  intros Hx Hy Hxy Hlt st c.
  set (pX := {| GetDisplayName := "X"; GetTileURI := "tile-x"; GetIdentifiers := [x];
                IsSuggestion := false; GetInternalIdentifier := fingerprint [x] |}).
  set (pY := {| GetDisplayName := "Y"; GetTileURI := "tile-y"; GetIdentifiers := [y];
                IsSuggestion := false; GetInternalIdentifier := fingerprint [y] |}).
  assert (st = {| m_identityProviders := ∅;
                  m_profiles := <[fingerprint [y] := pY]> (<[fingerprint [x] := pX]> ∅);
                  m_profileIndices := [fingerprint [x]; fingerprint [y]] |}) as ->.
  { subst st. rewrite ParseStoredProfiles_document.
    change [stored_entry "X" "tile-x" [x]; stored_entry "Y" "tile-y" [y]]
      with (profile_data <$> [candidate "X" "tile-x" [x]; candidate "Y" "tile-y" [y]]).
    rewrite (omap_fmap_Some _ _
               (λ p, {| GetDisplayName := GetDisplayName p; GetTileURI := GetTileURI p;
                        GetIdentifiers := cut_identifier <$> GetIdentifiers p;
                        IsSuggestion := false;
                        GetInternalIdentifier :=
                          fingerprint (cut_identifier <$> GetIdentifiers p) |}))
      by apply profile_of_entry_data.
    simpl. rewrite Hx, Hy. reflexivity. }
  assert (fingerprint [y] ≠ fingerprint [x]) as Hne by lia.
  assert (∀ k p, <[fingerprint [y] := pY]> (<[fingerprint [x] := pX]> (∅ : gmap Z ProfileImpl))
                   !! k = Some p →
          (k = fingerprint [y] ∧ p = pY) ∨ (k = fingerprint [x] ∧ p = pX)) as Hcases.
  { intros k p. rewrite !lookup_insert, lookup_empty.
    repeat case_decide; intros [=]; subst; auto. }
  split_and!.
  - reflexivity.
  - rewrite suggestion_scan_search. cbn [m_profiles].
    apply (search_selected _ [] [x] y (fingerprint [y]) pY).
    + intros a Ha. now apply elem_of_nil in Ha.
    + apply lookup_insert_eq.
    + left.
    + intros k' p' Hk' Hheld. apply Hcases in Hk' as [[-> ->]|[-> ->]]; [lia|].
      simpl in Hheld. apply list_elem_of_singleton in Hheld. congruence.
    + intros k0 p0 Hk0 Hleast b Hb Hheld. apply list_elem_of_singleton in Hb as ->.
      apply Hcases in Hk0 as [[-> ->]|[-> ->]].
      * simpl in Hheld. apply list_elem_of_singleton in Hheld. congruence.
      * assert (fingerprint [x] ≤ fingerprint [y]); [|lia].
        apply Hleast. rewrite lookup_insert_eq. eauto.
  - unfold first_match_in_discovery_order. simpl.
    rewrite lookup_insert_ne by exact Hne. rewrite lookup_insert_eq.
    unfold shares_identifier_b. simpl.
    rewrite (bool_decide_eq_false_2 (y ∈ [x])), (bool_decide_eq_true_2 (x ∈ [x])).
    + reflexivity.
    + left.
    + intros Hin. apply list_elem_of_singleton in Hin. congruence.
Qed.

End Persistence.

(** ** The no-op operations *)

(** C10. [AddProfile] and [SetPrimaryProfile] return a task that is already
    completed with a default-constructed result and leave the manager, its
    profile map and its enumeration included, as it was. *)
Theorem AddProfile_SetPrimaryProfile_noop (profile : ProfileImpl) (st : ProfileManagerImpl) :
  AddProfile profile st = (task_from_result ProfileTaskResult_default, st)
  ∧ SetPrimaryProfile profile st = (task_from_result ProfileTaskResult_default, st)
  ∧ m_profiles (AddProfile profile st).2 = m_profiles st
  ∧ m_profileIndices (AddProfile profile st).2 = m_profileIndices st
  ∧ m_profiles (SetPrimaryProfile profile st).2 = m_profiles st
  ∧ m_profileIndices (SetPrimaryProfile profile st).2 = m_profileIndices st.
Proof. repeat split. Qed.

(** ** Sign-in *)

Section SignInFacts.

Variable client : IClient.
Variable st : ProfileManagerImpl.
Variable profile : ProfileImpl.
Variable parameters : gmap string string.

Local Abbreviation continueIdentifier := (continueIdentifier client st profile parameters).
Local Abbreviation SignIn_run := (SignIn_run client st profile parameters).
Local Abbreviation SignIn := (SignIn client st profile parameters).
Local Abbreviation resolves := (resolves st profile parameters).

Implicit Types (s : SignInState) (identifier : ProfileIdentifier).

Lemma resolves_cons from identifier (identifiers : list ProfileIdentifier) :
  resolves from (identifier :: identifiers) →
  (∃ provider tokenType token,
      m_identityProviders st !! identifier.1 = Some provider
      ∧ ProcessIdentity provider from profile parameters = IdentitySucceeded tokenType token)
  ∧ resolves (S from) identifiers.
Proof.
  intros H. split.
  - destruct (H 0%nat identifier eq_refl) as (provider & ty & tok & Hp & Hr).
    exists provider, ty, tok. now rewrite Nat.add_0_r in Hr.
  - intros j x Hj. destruct (H (S j) x Hj) as (provider & ty & tok & Hp & Hr).
    exists provider, ty, tok. now rewrite Nat.add_succ_r in Hr.
Qed.

(** The chain walks through the identifiers that resolve: it makes one call
    per identifier, sets no result, and goes on with the rest. *)
Lemma continueIdentifier_resolved (before rest : list ProfileIdentifier) s :
  resolves (idx s) before →
  ∃ bag, continueIdentifier (before ++ rest) s
    = continueIdentifier rest
        {| idx := (idx s + length before)%nat; tokenBag := bag;
           calls := calls s ++ resolutions (idx s) before;
           resultEvent := resultEvent s |}.
Proof.
  revert s. induction before as [|identifier before IH]; intros s Hres.
  - exists (tokenBag s). simpl. unfold resolutions. simpl.
    rewrite Nat.add_0_r, app_nil_r. now destruct s.
  - apply resolves_cons in Hres as [(provider & ty & tok & Hp & Hr) Hres].
    simpl. rewrite Hp. simpl. rewrite Hr.
    destruct (IH (next_idx (AddToken ty tok (log (CallProcessIdentity identifier.1 (idx s)) s))))
      as [bag ->]; [exact Hres|].
    exists bag. simpl. f_equal. f_equal.
    + lia.
    + rewrite <- app_assoc. f_equal. unfold resolutions. simpl.
      rewrite Nat.add_0_r. f_equal. apply imap_ext. intros j x _. simpl. f_equal. lia.
Qed.

Lemma elem_of_resolutions (c : call) from (identifiers : list ProfileIdentifier) :
  c ∈ resolutions from identifiers →
  ∃ key j, c = CallProcessIdentity key (from + j) ∧ (j < length identifiers)%nat.
Proof.
  unfold resolutions. intros Hc. apply elem_of_lookup_imap in Hc as (j & x & -> & Hj).
  exists x.1, j. split; [reflexivity|]. now apply lookup_lt_Some in Hj.
Qed.

(** The chain comes to an identifier without a registered provider: nothing
    is scheduled, so the index stays and the result is never set. *)
Lemma SignIn_unregistered_provider (before after : list ProfileIdentifier) identifier :
  GetIdentifiers profile = before ++ identifier :: after →
  resolves 0 before →
  m_identityProviders st !! identifier.1 = None →
  SignIn = None
  ∧ calls SignIn_run = resolutions 0 before
  ∧ idx SignIn_run = length before.
Proof.
  intros Hids Hres Hnone. unfold ProfileManager.SignIn, ProfileManager.SignIn_run. rewrite Hids.
  destruct (continueIdentifier_resolved before (identifier :: after)
              {| idx := 0; tokenBag := ∅; calls := []; resultEvent := None |} Hres)
    as [bag ->].
  simpl. rewrite Hnone. simpl. auto.
Qed.


(** When every identifier resolves, the chain reaches the handshake. *)
Lemma SignIn_all_resolved :
  resolves 0 (GetIdentifiers profile) →
  ∃ bag, SignIn_run
    = connect_and_authenticate client st
        {| idx := length (GetIdentifiers profile); tokenBag := bag;
           calls := resolutions 0 (GetIdentifiers profile); resultEvent := None |}.
Proof.
  intros Hres. unfold ProfileManager.SignIn_run.
  destruct (continueIdentifier_resolved (GetIdentifiers profile) []
              {| idx := 0; tokenBag := ∅; calls := []; resultEvent := None |} Hres)
    as [bag Hbag].
  rewrite app_nil_r in Hbag. rewrite Hbag.
  exists bag. reflexivity.
Qed.

End SignInFacts.

(** C1. A profile whose only identifier is keyed ["steam"] signs in on a
    manager without identity providers: the chain does not go on to the next
    position and makes no call at all, and the task [SignIn] returns never
    completes. *)
Theorem SignIn_without_provider_never_completes (client : IClient)
    (parameters : gmap string string) :
  SignIn client new_ProfileManagerImpl steam_profile parameters = None
  ∧ SignIn_run client new_ProfileManagerImpl steam_profile parameters
    = {| idx := 0; tokenBag := ∅; calls := []; resultEvent := None |}.
Proof. split; reflexivity. Qed.

(** ** The model at work on sample data *)

Lemma three_profile_store_iter :
  map_iter (m_profiles three_profile_store)
  = [(700960781, profile_B); (1620722314, profile_C); (2519807026, profile_A)].
Proof. vm_compute. reflexivity. Qed.

Lemma three_profile_store_indices :
  m_profileIndices three_profile_store = [700960781; 1620722314; 2519807026].
Proof. vm_compute. reflexivity. Qed.

Lemma three_profile_store_lookup (k : Z) (p : ProfileImpl) :
  m_profiles three_profile_store !! k = Some p →
  (k = 700960781 ∧ p = profile_B) ∨ (k = 1620722314 ∧ p = profile_C)
  ∨ (k = 2519807026 ∧ p = profile_A).
Proof.
  intros Hk. apply elem_of_map_iter in Hk. rewrite three_profile_store_iter in Hk.
  repeat (apply elem_of_cons in Hk as [[= -> ->]|Hk]; [tauto|]).
  now apply elem_of_nil in Hk.
Qed.

Lemma three_profile_store_reachable : reachable X64 example_hash three_profile_store.
Proof. apply reachable_parse, reachable_new. Qed.

(** The full sign-in of the specification: one identifier, its provider
    returns a bearer token, the backend accepts. *)
Example SignIn_success :
  let st := AddIdentityProvider steam_provider new_ProfileManagerImpl in
  SignIn willing_client st steam_profile ∅ = Some (ProfileTaskResult_flag true)
  ∧ calls (SignIn_run willing_client st steam_profile ∅)
    = [CallProcessIdentity "steam" 0;
       CallConnectRemote "layer1://localhost:3036";
       CallAuthenticate {["bearer" := "abc123"]};
       CallSaveStoredProfiles (JObject [("profiles", JArray [])])].
Proof. vm_compute. split; reflexivity. Qed.

Example SignIn_connect_failure :
  let st := AddIdentityProvider steam_provider new_ProfileManagerImpl in
  let client := {| ConnectRemote := λ _, Error 7; AuthenticateWithTokenBag := λ _, Succeeded |} in
  SignIn client st steam_profile ∅
  = Some (ProfileTaskResult_error false "Connecting to Terminal failed - error code 7.").
Proof. vm_compute. reflexivity. Qed.

(** ** The theorems at concrete inputs *)

Lemma hashKey_permutation_invariant_witness :
  [("steam", "1"); ("ros", "2")] ≡ₚ [("ros", "2"); ("steam", "1")]
  ∧ Z.land (suggestion_scan X64 example_hash ∅ [("steam", "1"); ("ros", "2")]).2 UINT32_MAX
    = Z.land (suggestion_scan X64 example_hash (m_profiles three_profile_store)
                [("ros", "2"); ("steam", "1")]).2 UINT32_MAX.
Proof.
  split.
  - apply perm_swap.
  - apply (hashKey_permutation_invariant X64 example_hash). apply perm_swap.
Defined.

(** Against C2 as worded: a suggested profile and a loaded one with the
    same set of identifiers, the loaded one listing its identifier twice,
    carry different fingerprints. *)
Lemma same_identifier_set_different_fingerprint :
  ¬ (∀ st st' k k' p p',
       reachable X64 example_hash st → reachable X64 example_hash st' →
       m_profiles st !! k = Some p → m_profiles st' !! k' = Some p' →
       (∀ identifier, identifier ∈ GetIdentifiers p ↔ identifier ∈ GetIdentifiers p') →
       GetInternalIdentifier p = GetInternalIdentifier p').
Proof.
  intros Hclaim.
  assert (2519807026 = 0) as Habsurd; [|discriminate Habsurd].
  apply (Hclaim
    (Initialize_callback X64 example_hash (candidate "A" "tile-a" [("steam", "1")])
       new_ProfileManagerImpl)
    (ParseStoredProfiles X64 example_hash (Some doubled_document) new_ProfileManagerImpl)
    2519807026 0
    {| GetDisplayName := "A"; GetTileURI := "tile-a"; GetIdentifiers := [("steam", "1")];
       IsSuggestion := true; GetInternalIdentifier := 2519807026 |}
    {| GetDisplayName := "A"; GetTileURI := "tile-a";
       GetIdentifiers := [("steam", "1"); ("steam", "1")];
       IsSuggestion := false; GetInternalIdentifier := 0 |}).
  - apply reachable_suggestion, reachable_new.
  - apply reachable_parse, reachable_new.
  - vm_compute. reflexivity.
  - vm_compute. reflexivity.
  - intros identifier. simpl. rewrite !elem_of_cons. tauto.
Qed.

Lemma fingerprint_assigned_on_both_paths_witness :
  let st' := Initialize_callback X64 example_hash (candidate "A" "tile-a" [("steam", "1")])
               new_ProfileManagerImpl in
  let p' := {| GetDisplayName := "A"; GetTileURI := "tile-a";
               GetIdentifiers := [("steam", "1")];
               IsSuggestion := true; GetInternalIdentifier := 2519807026 |} in
  (reachable X64 example_hash three_profile_store
   ∧ reachable X64 example_hash st'
   ∧ m_profiles three_profile_store !! 2519807026 = Some profile_A
   ∧ m_profiles st' !! 2519807026 = Some p')
  ∧ (GetInternalIdentifier profile_A = fingerprint X64 example_hash (GetIdentifiers profile_A)
     ∧ 2519807026 = GetInternalIdentifier profile_A)
  ∧ GetInternalIdentifier profile_A = GetInternalIdentifier p'.
Proof.
  intros st' p'.
  assert (reachable X64 example_hash three_profile_store) as H1
    by apply three_profile_store_reachable.
  assert (reachable X64 example_hash st') as H2
    by apply reachable_suggestion, reachable_new.
  assert (m_profiles three_profile_store !! 2519807026 = Some profile_A) as H3
    by (vm_compute; reflexivity).
  assert (m_profiles st' !! 2519807026 = Some p') as H4
    by (vm_compute; reflexivity).
  destruct (fingerprint_assigned_on_both_paths X64 example_hash
              three_profile_store st' 2519807026 2519807026 profile_A p' H1 H2 H3 H4)
    as [Hfp Hperm].
  split; [auto|]. split; [exact Hfp|].
  apply Hperm. reflexivity.
Defined.


Lemma holders_store_iter :
  map_iter (m_profiles holders_store)
  = [(1620722314, profile_C); (2519807026, profile_solo); (3220628543, profile_pair)].
Proof. vm_compute. reflexivity. Qed.

Lemma not_held_iter m (identifier : ProfileIdentifier) :
  Forall (λ kp : Z * ProfileImpl, identifier ∉ GetIdentifiers kp.2) (map_iter m) →
  ¬ held m identifier.
Proof.
  intros Hall (k & p & Hk & Hid). rewrite Forall_forall in Hall.
  apply (Hall (k, p)); [now apply elem_of_map_iter | exact Hid].
Qed.

Lemma pair_store_iter :
  map_iter (m_profiles pair_store) = [(3220628543, profile_pair)].
Proof. vm_compute. reflexivity. Qed.


(** With the flag set the later identifiers of the candidate are compared
    with the first profile of the map alone: a candidate holding the
    identifier of A and then that of B, whose key is the least, ends up
    matched with B. *)
Example later_identifier_overrides_match :
  (suggestion_scan X64 example_hash (m_profiles three_profile_store)
     [("steam", "1")]).1 = (true, Some 2519807026)
  ∧ (suggestion_scan X64 example_hash (m_profiles three_profile_store)
       [("steam", "1"); ("ros", "2")]).1 = (true, Some 700960781).
Proof. vm_compute. split; reflexivity. Qed.

Lemma merge_overwrites_display_only_witness :
  (∃ k p, m_profiles three_profile_store !! k = Some p ∧ shares_identifier candidate_AC p)
  ∧ GetNumProfiles (Initialize_callback X64 example_hash candidate_AC three_profile_store)
    = GetNumProfiles three_profile_store.
Proof.
  assert (∃ k p, m_profiles three_profile_store !! k = Some p ∧ shares_identifier candidate_AC p)
    as Hshare.
  { exists 1620722314, profile_C. split; [vm_compute; reflexivity|].
    exists ("xbl", "3"). split; [right; left | left]. }
  split; [exact Hshare|].
  destruct (merge_overwrites_display_only X64 example_hash three_profile_store candidate_AC Hshare)
    as (k & p & _ & _ & _ & _ & Hnum).
  exact Hnum.
Defined.

(** Against C8 as worded: two candidates without an identifier in common,
    here two that list their one identifier twice and two that list none,
    end up under the same key 0: the enumeration has two positions, and both
    show the second candidate. *)
Lemma two_disjoint_suggestions_one_entry :
  let cb := Initialize_callback X64 example_hash in
  let c1 := candidate "one" "tile-1" [("steam", "1"); ("steam", "1")] in
  let c2 := candidate "two" "tile-2" [("ros", "2"); ("ros", "2")] in
  let e1 := candidate "one" "tile-1" [] in
  let e2 := candidate "two" "tile-2" [] in
  (∀ identifier, identifier ∈ GetIdentifiers c1 → identifier ∉ GetIdentifiers c2)
  ∧ size (m_profiles (cb c2 (cb c1 new_ProfileManagerImpl))) = 1%nat
  ∧ GetNumProfiles (cb c2 (cb c1 new_ProfileManagerImpl)) = 2%nat
  ∧ GetProfile (cb c2 (cb c1 new_ProfileManagerImpl)) 0
    = GetProfile (cb c2 (cb c1 new_ProfileManagerImpl)) 1
  ∧ GetDisplayName <$> GetProfile (cb c2 (cb c1 new_ProfileManagerImpl)) 0 = Some "two"
  ∧ (∀ identifier, identifier ∈ GetIdentifiers e1 → identifier ∉ GetIdentifiers e2)
  ∧ size (m_profiles (cb e2 (cb e1 new_ProfileManagerImpl))) = 1%nat
  ∧ GetProfile (cb e2 (cb e1 new_ProfileManagerImpl)) 0
    = GetProfile (cb e2 (cb e1 new_ProfileManagerImpl)) 1.
Proof.
  intros cb c1 c2 e1 e2. split_and!; try (vm_compute; reflexivity).
  - intros identifier H1 H2. simpl in H1, H2.
    rewrite !elem_of_cons in H1, H2. rewrite !elem_of_nil in H1, H2.
    destruct H1 as [->|[->|[]]]; destruct H2 as [[=]|[[=]|[]]].
  - intros identifier H1. now apply elem_of_nil in H1.
Qed.

Lemma two_suggestions_witness :
  let cb := Initialize_callback X64 example_hash in
  let c1 := candidate "one" "tile-1" [("steam", "1")] in
  let c2 := candidate "two" "tile-2" [("ros", "2")] in
  let c3 := candidate "three" "tile-3" [("xbl", "3"); ("steam", "1")] in
  ((∀ identifier, identifier ∈ GetIdentifiers c1 → identifier ∉ GetIdentifiers c2)
   ∧ fingerprint X64 example_hash (GetIdentifiers c1)
     ≠ fingerprint X64 example_hash (GetIdentifiers c2)
   ∧ GetNumProfiles (cb c2 (cb c1 new_ProfileManagerImpl)) = 2%nat)
  ∧ (shares_identifier c1 c3
     ∧ GetNumProfiles (cb c3 (cb c1 new_ProfileManagerImpl)) = 1%nat
     ∧ GetProfile (cb c3 (cb c1 new_ProfileManagerImpl)) 0
       = Some (redisplayed c3 (suggested X64 example_hash c1))).
Proof.
  intros cb c1 c2 c3.
  assert (∀ identifier, identifier ∈ GetIdentifiers c1 → identifier ∉ GetIdentifiers c2)
    as Hdisj.
  { intros identifier H1 H2. apply list_elem_of_singleton in H1 as ->.
    apply list_elem_of_singleton in H2. discriminate H2. }
  assert (fingerprint X64 example_hash (GetIdentifiers c1)
          ≠ fingerprint X64 example_hash (GetIdentifiers c2)) as Hne.
  { vm_compute. discriminate. }
  assert (shares_identifier c1 c3) as Hshare.
  { exists ("steam", "1"). split; [left | right; left]. }
  split.
  - split; [exact Hdisj|]. split; [exact Hne|].
    exact (proj1 (proj1 (two_suggestions X64 example_hash c1 c2) Hdisj Hne)).
  - split; [exact Hshare|].
    destruct (proj2 (two_suggestions X64 example_hash c1 c3) Hshare) as (Hn & _ & _ & Hp).
    split; [exact Hn | exact Hp].
Defined.

(** Against C4 as worded: an entry whose second identifier pair is
    malformed is not skipped; it is stored with its first pair alone. *)
Lemma entry_with_malformed_pair_is_stored :
  malformed_entry_strict entry_with_bad_pair = true
  ∧ ParseStoredProfiles_profile X64 example_hash new_ProfileManagerImpl entry_with_bad_pair
    ≠ new_ProfileManagerImpl
  ∧ GetNumProfiles
      (ParseStoredProfiles X64 example_hash
         (Some (JObject [("profiles", JArray [entry_with_bad_pair])])) new_ProfileManagerImpl)
    = 1%nat
  ∧ GetIdentifiers <$>
      GetProfile
        (ParseStoredProfiles X64 example_hash
           (Some (JObject [("profiles", JArray [entry_with_bad_pair])])) new_ProfileManagerImpl) 0
    = Some [("steam", "1")].
Proof.
  split_and!; try (vm_compute; reflexivity).
  intros Heq. apply (f_equal GetNumProfiles) in Heq. vm_compute in Heq. discriminate Heq.
Qed.

Lemma load_skips_malformed_entries_witness :
  (IsObject mixed_document = true
   ∧ FindMember "profiles" mixed_document = Some (JArray mixed_profiles))
  ∧ m_profileIndices
      (ParseStoredProfiles X64 example_hash (Some mixed_document) new_ProfileManagerImpl)
    = [700960781; 1416505845; 2519807026]
  ∧ omap (profile_of_entry X64 example_hash) mixed_profiles = [profile_B; profile_N; profile_A]
  ∧ ParseStoredProfiles_profile X64 example_hash new_ProfileManagerImpl entry_with_nul
    = inserted profile_N new_ProfileManagerImpl.
Proof.
  split; [split; reflexivity|].
  destruct (load_skips_malformed_entries X64 example_hash mixed_document mixed_profiles
              new_ProfileManagerImpl eq_refl eq_refl) as (_ & Hentry & _ & Hindices & _).
  split_and!.
  - rewrite Hindices. vm_compute. reflexivity.
  - vm_compute. reflexivity.
  - rewrite (Hentry new_ProfileManagerImpl entry_with_nul "N" "tile-n"
               [JArray [JString a_nul_b; JString "1"]] eq_refl eq_refl eq_refl eq_refl).
    vm_compute. reflexivity.
Defined.

(** The identifiers of a concrete store hold no NUL when those the map
    iterates over hold none. *)
Lemma nul_free_identifiers_iter (st : ProfileManagerImpl) :
  Forall (λ kp : Z * ProfileImpl,
            Forall (λ identifier : ProfileIdentifier,
                      nul_free identifier.1 = true ∧ nul_free identifier.2 = true)
                   (GetIdentifiers kp.2))
         (map_iter (m_profiles st)) →
  nul_free_identifiers st.
Proof.
  intros Hall k p identifier Hk Hid. rewrite Forall_forall in Hall.
  apply elem_of_map_iter, Hall in Hk. rewrite Forall_forall in Hk. now apply Hk.
Qed.

Lemma four_profile_store_iter :
  map_iter (m_profiles four_profile_store)
  = [(700960781, profile_B); (1620722314, profile_C);
     (2517154623, suggested X64 example_hash candidate_D); (2519807026, profile_A)].
Proof. vm_compute. reflexivity. Qed.

Lemma four_profile_store_reachable : reachable X64 example_hash four_profile_store.
Proof. apply reachable_suggestion, three_profile_store_reachable. Qed.

Lemma four_profile_store_nul_free : nul_free_identifiers four_profile_store.
Proof.
  apply nul_free_identifiers_iter. rewrite four_profile_store_iter.
  repeat constructor.
Qed.

(** A store of three loaded profiles and a suggestion, enumerated B, C, A, D:
    it is loaded back with the same four profiles, the suggestion flag of D
    cleared, and enumerated in the order of the map. *)
Lemma save_then_load_witness :
  (reachable X64 example_hash four_profile_store
   ∧ nul_free_identifiers four_profile_store)
  ∧ m_profileIndices four_profile_store = [700960781; 1620722314; 2519807026; 2517154623]
  ∧ map_iter (m_profiles four_profile_store)
    = [(700960781, profile_B); (1620722314, profile_C);
       (2517154623, suggested X64 example_hash candidate_D); (2519807026, profile_A)]
  ∧ m_profiles (reloaded X64 example_hash four_profile_store)
    = SetIsSuggestion false <$> m_profiles four_profile_store
  ∧ m_profileIndices (reloaded X64 example_hash four_profile_store)
    = [700960781; 1620722314; 2517154623; 2519807026]
  ∧ GetNumProfiles (reloaded X64 example_hash four_profile_store) = 4%nat
  ∧ GetProfile (reloaded X64 example_hash four_profile_store) 2
    = Some (SetIsSuggestion false (suggested X64 example_hash candidate_D)).
Proof.
  split; [split; [apply four_profile_store_reachable | apply four_profile_store_nul_free]|].
  destruct (save_then_load X64 example_hash four_profile_store
              four_profile_store_reachable four_profile_store_nul_free)
    as (Hmap & _ & _ & _ & Hidx & _ & Hnum & _).
  split_and!.
  - vm_compute. reflexivity.
  - apply four_profile_store_iter.
  - exact Hmap.
  - rewrite Hidx, four_profile_store_iter. reflexivity.
  - rewrite Hnum, <- map_iter_length, four_profile_store_iter. reflexivity.
  - vm_compute. reflexivity.
Defined.

(** Against C5 as worded.  A suggestion whose identifier key is a, NUL, b is
    stored with that key under 3083256587; the store it is loaded back as
    holds the key a instead, under 1416505845, and nothing under
    3083256587.  And a store that enumerates one profile twice, as the one
    loaded from a document with two entries of the same identifiers does, is
    loaded back enumerating it once. *)
Lemma reload_changes_identifier_with_nul :
  (let st := Initialize_callback X64 example_hash candidate_with_nul new_ProfileManagerImpl in
   reachable X64 example_hash st
   ∧ m_profileIndices st = [3083256587]
   ∧ GetIdentifiers <$> GetProfile st 0 = Some [(a_nul_b, "1")]
   ∧ m_profileIndices (reloaded X64 example_hash st) = [1416505845]
   ∧ GetIdentifiers <$> GetProfile (reloaded X64 example_hash st) 0 = Some [("a", "1")]
   ∧ m_profiles (reloaded X64 example_hash st) !! 3083256587 = None
   ∧ dom (m_profiles (reloaded X64 example_hash st)) ≠ dom (m_profiles st))
  ∧ (let st := ParseStoredProfiles X64 example_hash (Some twice_document)
                 new_ProfileManagerImpl in
     reachable X64 example_hash st
     ∧ m_profileIndices st = [2519807026; 2519807026]
     ∧ GetNumProfiles st = 2%nat
     ∧ m_profileIndices (reloaded X64 example_hash st) = [2519807026]
     ∧ GetNumProfiles (reloaded X64 example_hash st) = 1%nat).
Proof.
  split.
  - intros st.
    split; [apply reachable_suggestion, reachable_new|].
    do 5 (split; [vm_compute; reflexivity|]).
    intros Heq.
    assert (m_profiles (reloaded X64 example_hash st) !! 3083256587 = None) as Hnone
      by (vm_compute; reflexivity).
    assert (is_Some (m_profiles st !! 3083256587)) as Hsome by (vm_compute; eauto).
    rewrite <- elem_of_dom, <- Heq, elem_of_dom, Hnone in Hsome.
    destruct Hsome as [p Hp]. discriminate Hp.
  - intros st.
    split; [apply reachable_parse, reachable_new|].
    do 3 (split; [vm_compute; reflexivity|]).
    vm_compute. reflexivity.
Qed.

(** Saving and loading an empty store and a store of suggestions. *)
Example reload_empty_store :
  reloaded X64 example_hash new_ProfileManagerImpl = new_ProfileManagerImpl.
Proof. vm_compute. reflexivity. Qed.

Example reload_suggested_store :
  let st := Initialize_callback X64 example_hash candidate_AC new_ProfileManagerImpl in
  GetProfile st 0 = Some (suggested X64 example_hash candidate_AC)
  ∧ GetProfile (reloaded X64 example_hash st) 0
    = Some (SetIsSuggestion false (suggested X64 example_hash candidate_AC)).
Proof. vm_compute. split; reflexivity. Qed.


(** The chain at a profile whose second identifier has no provider: the
    first provider is called and nothing follows. *)
Example SignIn_stalls_at_second_identifier :
  let st := AddIdentityProvider steam_provider new_ProfileManagerImpl in
  SignIn willing_client st three_identifier_profile ∅ = None
  ∧ calls (SignIn_run willing_client st three_identifier_profile ∅)
    = [CallProcessIdentity "steam" 0]
  ∧ idx (SignIn_run willing_client st three_identifier_profile ∅) = 1%nat.
Proof. vm_compute. repeat split. Qed.

(** * Further properties of the component *)

(** ** How a sign-in ends *)

Section SignInOutcomes.

Variable client : IClient.
Variable st : ProfileManagerImpl.
Variable profile : ProfileImpl.
Variable parameters : gmap string string.

Local Abbreviation continueIdentifier := (continueIdentifier client st profile parameters).
Local Abbreviation SignIn_run := (SignIn_run client st profile parameters).
Local Abbreviation SignIn := (SignIn client st profile parameters).
Local Abbreviation resolves := (resolves st profile parameters).
Local Abbreviation connect_and_authenticate := (connect_and_authenticate client st).

Implicit Types (s : SignInState) (identifier : ProfileIdentifier).

Lemma resolves_nil from : resolves from [].
Proof. intros j identifier Hj. discriminate Hj. Qed.

Lemma resolves_cons_intro from identifier (identifiers : list ProfileIdentifier)
    (provider : ProfileIdentityProvider) (tokenType token : string) :
  m_identityProviders st !! identifier.1 = Some provider →
  ProcessIdentity provider from profile parameters = IdentitySucceeded tokenType token →
  resolves (S from) identifiers →
  resolves from (identifier :: identifiers).
Proof.
  intros Hp Hr Hrest [|j] x Hj.
  - injection Hj as <-. exists provider, tokenType, token. now rewrite Nat.add_0_r.
  - destruct (Hrest j x Hj) as (provider' & ty & tok & Hp' & Hr').
    exists provider', ty, tok. now rewrite Nat.add_succ_r.
Qed.

(** The three ways the chain comes to rest: at an identifier without a
    provider, at a provider that fails, or in the handshake. *)
Lemma continueIdentifier_cases (rest : list ProfileIdentifier) s :
  (∃ before identifier after bag,
      rest = before ++ identifier :: after
      ∧ resolves (idx s) before
      ∧ m_identityProviders st !! identifier.1 = None
      ∧ continueIdentifier rest s
        = {| idx := (idx s + length before)%nat; tokenBag := bag;
             calls := calls s ++ resolutions (idx s) before;
             resultEvent := resultEvent s |})
  ∨ (∃ before identifier after provider error bag,
      rest = before ++ identifier :: after
      ∧ resolves (idx s) before
      ∧ m_identityProviders st !! identifier.1 = Some provider
      ∧ ProcessIdentity provider (idx s + length before) profile parameters
        = IdentityFailed error
      ∧ continueIdentifier rest s
        = {| idx := (idx s + length before)%nat; tokenBag := bag;
             calls := calls s ++ resolutions (idx s) (before ++ [identifier]);
             resultEvent := Some (ProfileTaskResult_error false error) |})
  ∨ (resolves (idx s) rest
     ∧ ∃ bag, continueIdentifier rest s
        = connect_and_authenticate
            {| idx := (idx s + length rest)%nat; tokenBag := bag;
               calls := calls s ++ resolutions (idx s) rest;
               resultEvent := resultEvent s |}).
Proof.
  revert s. induction rest as [|identifier rest IH]; intros s.
  - right. right. split; [apply resolves_nil|]. exists (tokenBag s).
    simpl. unfold resolutions. simpl. rewrite Nat.add_0_r, app_nil_r. now destruct s.
  - simpl. destruct (m_identityProviders st !! identifier.1) as [provider|] eqn:Hp.
    + simpl. destruct (ProcessIdentity provider (idx s) profile parameters)
        as [ty tok|error] eqn:Hr.
      * set (s' := next_idx (AddToken ty tok (log (CallProcessIdentity identifier.1 (idx s)) s))).
        assert (∀ l : list ProfileIdentifier,
                  calls s' ++ resolutions (idx s') l
                  = calls s ++ resolutions (idx s) (identifier :: l)) as Hcalls.
        { intros l. subst s'. simpl. rewrite <- app_assoc. f_equal. unfold resolutions. simpl.
          rewrite Nat.add_0_r. f_equal. apply imap_ext. intros j x _. simpl. f_equal. lia. }
        destruct (IH s') as [(before & x & after & bag & -> & Hres & Hnone & ->)
                            |[(before & x & after & q & e & bag & -> & Hres & Hq & He & ->)
                             |(Hres & bag & ->)]].
        -- left. exists (identifier :: before), x, after, bag.
           split; [reflexivity|].
           split; [now apply (resolves_cons_intro _ _ _ provider ty tok)|].
           split; [exact Hnone|].
           rewrite Hcalls. f_equal. subst s'. simpl. lia.
        -- right. left. exists (identifier :: before), x, after, q, e, bag.
           split; [reflexivity|].
           split; [now apply (resolves_cons_intro _ _ _ provider ty tok)|].
           split; [exact Hq|].
           split; [rewrite <- He; f_equal; subst s'; simpl; lia|].
           rewrite Hcalls. f_equal. subst s'. simpl. lia.
        -- right. right. split; [now apply (resolves_cons_intro _ _ _ provider ty tok)|].
           exists bag. rewrite Hcalls. f_equal. f_equal. subst s'. simpl. lia.
      * right. left. exists [], identifier, rest, provider, error, (tokenBag s).
        split; [reflexivity|].
        split; [apply resolves_nil|].
        split; [exact Hp|].
        split; [now rewrite Nat.add_0_r|].
        simpl. unfold resolutions. simpl. now rewrite !Nat.add_0_r.
    + left. exists [], identifier, rest, (tokenBag s).
      split; [reflexivity|].
      split; [apply resolves_nil|].
      split; [exact Hp|].
      simpl. unfold resolutions. simpl. rewrite Nat.add_0_r, app_nil_r. now destruct s.
Qed.

(** The handshake, by the answers of the backend. *)
Lemma connect_and_authenticate_outcome s :
  (∃ code, ConnectRemote client "layer1://localhost:3036" = Error code
     ∧ connect_and_authenticate s
       = {| idx := idx s; tokenBag := tokenBag s;
            calls := calls s ++ [CallConnectRemote "layer1://localhost:3036"];
            resultEvent := Some (ProfileTaskResult_error false
              (va "Connecting to Terminal failed - error code " code ".")) |})
  ∨ (∃ code, ConnectRemote client "layer1://localhost:3036" = Succeeded
       ∧ AuthenticateWithTokenBag client (tokenBag s) = Error code
       ∧ connect_and_authenticate s
         = {| idx := idx s; tokenBag := tokenBag s;
              calls := calls s ++ [CallConnectRemote "layer1://localhost:3036";
                                   CallAuthenticate (tokenBag s)];
              resultEvent := Some (ProfileTaskResult_error false
                (va "Authenticating to Terminal failed - error code " code ".")) |})
  ∨ (ConnectRemote client "layer1://localhost:3036" = Succeeded
     ∧ AuthenticateWithTokenBag client (tokenBag s) = Succeeded
     ∧ connect_and_authenticate s
       = {| idx := idx s; tokenBag := tokenBag s;
            calls := calls s ++ [CallConnectRemote "layer1://localhost:3036";
                                 CallAuthenticate (tokenBag s);
                                 CallSaveStoredProfiles (UpdateStoredProfiles st)];
            resultEvent := Some (ProfileTaskResult_flag true) |}).
Proof.
  unfold ProfileManager.connect_and_authenticate.
  destruct (ConnectRemote client "layer1://localhost:3036") as [|code] eqn:Hc.
  - simpl. destruct (AuthenticateWithTokenBag client (tokenBag s)) as [|code] eqn:Ha.
    + right. right. split; [reflexivity|]. split; [reflexivity|].
      unfold resultEvent_set, log. simpl. now rewrite <- !app_assoc.
    + right. left. exists code. split; [reflexivity|]. split; [reflexivity|].
      unfold resultEvent_set, log. simpl. now rewrite <- !app_assoc.
  - left. exists code. split; [reflexivity|]. reflexivity.
Qed.

Lemma SignIn_handshake :
  resolves 0 (GetIdentifiers profile) →
  ∃ bag, SignIn_run
    = connect_and_authenticate
        {| idx := length (GetIdentifiers profile); tokenBag := bag;
           calls := resolutions 0 (GetIdentifiers profile); resultEvent := None |}.
Proof. apply SignIn_all_resolved. Qed.

(** X1. Every identifier resolves, the backend accepts the connection and
    the token bag: the task completes with success, after the provider
    calls in identifier order, one connect, one authenticate with the bag
    and one save of the store, in this order. *)
Theorem SignIn_succeeds :
  resolves 0 (GetIdentifiers profile) →
  ConnectRemote client "layer1://localhost:3036" = Succeeded →
  AuthenticateWithTokenBag client (tokenBag SignIn_run) = Succeeded →
  SignIn = Some (ProfileTaskResult_flag true)
  ∧ calls SignIn_run
    = resolutions 0 (GetIdentifiers profile)
      ++ [CallConnectRemote "layer1://localhost:3036";
          CallAuthenticate (tokenBag SignIn_run);
          CallSaveStoredProfiles (UpdateStoredProfiles st)].
Proof.
  intros Hres Hc Ha. unfold ProfileManager.SignIn.
  destruct (SignIn_handshake Hres) as [bag Hrun].
  destruct (connect_and_authenticate_outcome
              {| idx := length (GetIdentifiers profile); tokenBag := bag;
                 calls := resolutions 0 (GetIdentifiers profile); resultEvent := None |})
    as [(code & Hc' & _)|[(code & _ & Ha' & Heq)|(_ & _ & Heq)]].
  - congruence.
  - rewrite Hrun, Heq in Ha. simpl in Ha, Ha'. congruence.
  - rewrite Hrun, Heq. simpl. auto.
Qed.

(** X2. Every identifier resolves and the connection is refused with
    [code]: the task completes with the failure message that carries the
    code; the backend is not asked to authenticate and nothing is saved. *)
Theorem SignIn_connect_refused (code : Z) :
  resolves 0 (GetIdentifiers profile) →
  ConnectRemote client "layer1://localhost:3036" = Error code →
  SignIn = Some (ProfileTaskResult_error false
                   ("Connecting to Terminal failed - error code "
                    +:+ NilZero.string_of_int (Z.to_int code) +:+ "."))
  ∧ calls SignIn_run
    = resolutions 0 (GetIdentifiers profile) ++ [CallConnectRemote "layer1://localhost:3036"].
Proof.
  intros Hres Hc. unfold ProfileManager.SignIn.
  destruct (SignIn_handshake Hres) as [bag Hrun].
  destruct (connect_and_authenticate_outcome
              {| idx := length (GetIdentifiers profile); tokenBag := bag;
                 calls := resolutions 0 (GetIdentifiers profile); resultEvent := None |})
    as [(code' & Hc' & Heq)|[(code' & Hc' & _)|(Hc' & _)]].
  - rewrite Hrun, Heq. simpl. assert (code' = code) as -> by congruence. auto.
  - congruence.
  - congruence.
Qed.

(** X3. Every identifier resolves, the connection is accepted and the
    token bag is rejected with [code]: the task completes with the failure
    message that carries the code, and the store is not saved. *)
Theorem SignIn_authentication_rejected (code : Z) :
  resolves 0 (GetIdentifiers profile) →
  ConnectRemote client "layer1://localhost:3036" = Succeeded →
  AuthenticateWithTokenBag client (tokenBag SignIn_run) = Error code →
  SignIn = Some (ProfileTaskResult_error false
                   ("Authenticating to Terminal failed - error code "
                    +:+ NilZero.string_of_int (Z.to_int code) +:+ "."))
  ∧ calls SignIn_run
    = resolutions 0 (GetIdentifiers profile)
      ++ [CallConnectRemote "layer1://localhost:3036";
          CallAuthenticate (tokenBag SignIn_run)].
Proof.
  intros Hres Hc Ha. unfold ProfileManager.SignIn.
  destruct (SignIn_handshake Hres) as [bag Hrun].
  destruct (connect_and_authenticate_outcome
              {| idx := length (GetIdentifiers profile); tokenBag := bag;
                 calls := resolutions 0 (GetIdentifiers profile); resultEvent := None |})
    as [(code' & Hc' & _)|[(code' & _ & Ha' & Heq)|(_ & Ha' & Heq)]].
  - congruence.
  - rewrite Hrun, Heq in Ha. simpl in Ha, Ha'.
    rewrite Hrun, Heq. simpl. assert (code' = code) as -> by congruence. auto.
  - rewrite Hrun, Heq in Ha. simpl in Ha, Ha'. congruence.
Qed.

Lemma SignIn_run_cases :
  (∃ before identifier after bag,
      GetIdentifiers profile = before ++ identifier :: after
      ∧ resolves 0 before
      ∧ m_identityProviders st !! identifier.1 = None
      ∧ SignIn_run
        = {| idx := length before; tokenBag := bag;
             calls := resolutions 0 before; resultEvent := None |})
  ∨ (∃ before identifier after provider error bag,
      GetIdentifiers profile = before ++ identifier :: after
      ∧ resolves 0 before
      ∧ m_identityProviders st !! identifier.1 = Some provider
      ∧ ProcessIdentity provider (length before) profile parameters = IdentityFailed error
      ∧ SignIn_run
        = {| idx := length before; tokenBag := bag;
             calls := resolutions 0 (before ++ [identifier]);
             resultEvent := Some (ProfileTaskResult_error false error) |})
  ∨ (resolves 0 (GetIdentifiers profile)
     ∧ ∃ bag, SignIn_run
        = connect_and_authenticate
            {| idx := length (GetIdentifiers profile); tokenBag := bag;
               calls := resolutions 0 (GetIdentifiers profile);
               resultEvent := None |}).
Proof.
  unfold ProfileManager.SignIn_run.
  destruct (continueIdentifier_cases (GetIdentifiers profile)
              {| idx := 0; tokenBag := ∅; calls := []; resultEvent := None |})
    as [(before & x & after & bag & Hids & Hres & Hnone & Heq)
       |[(before & x & after & q & e & bag & Hids & Hres & Hq & He & Heq)
        |(Hres & bag & Heq)]].
  - left. exists before, x, after, bag. auto.
  - right. left. exists before, x, after, q, e, bag. auto.
  - right. right. split; [exact Hres|]. exists bag. exact Heq.
Qed.

Lemma resolutions_no_backend_call from (identifiers : list ProfileIdentifier) (c : call) :
  c ∈ resolutions from identifiers → is_backend_call c = false.
Proof. intros Hc. apply elem_of_resolutions in Hc as (key & j & -> & _). reflexivity. Qed.

(** X4. The task a sign-in returns stays uncompleted in exactly one
    situation: the chain, having resolved the identifiers before it, comes
    to an identifier whose key has no registered provider.  In particular a
    sign-in over identifiers that all have providers completes. *)
Theorem SignIn_uncompleted_iff :
  SignIn = None
  ↔ ∃ before identifier after,
      GetIdentifiers profile = before ++ identifier :: after
      ∧ resolves 0 before
      ∧ m_identityProviders st !! identifier.1 = None.
Proof.
  split.
  - intros Hnone. unfold ProfileManager.SignIn in Hnone.
    destruct SignIn_run_cases
      as [(before & x & after & bag & Hids & Hres & Hx & _)
         |[(before & x & after & q & e & bag & _ & _ & _ & _ & Heq)
          |(_ & bag & Heq)]].
    + exists before, x, after. auto.
    + rewrite Heq in Hnone. discriminate Hnone.
    + rewrite Heq in Hnone.
      destruct (connect_and_authenticate_outcome
                  {| idx := length (GetIdentifiers profile); tokenBag := bag;
                     calls := resolutions 0 (GetIdentifiers profile); resultEvent := None |})
        as [(code & _ & Heq')|[(code & _ & _ & Heq')|(_ & _ & Heq')]];
        rewrite Heq' in Hnone; discriminate Hnone.
  - intros (before & x & after & Hids & Hres & Hx).
    apply (SignIn_unregistered_provider client st profile parameters before after x Hids Hres Hx).
Qed.

(** X5. The store is saved by a sign-in exactly when the sign-in succeeds,
    and what is saved then is the document of the manager's store. *)
Theorem SignIn_saves_iff_success :
  ((∃ document, CallSaveStoredProfiles document ∈ calls SignIn_run)
   ↔ SignIn = Some (ProfileTaskResult_flag true))
  ∧ (∀ document, CallSaveStoredProfiles document ∈ calls SignIn_run →
       document = UpdateStoredProfiles st).
Proof.
  unfold ProfileManager.SignIn.
  destruct SignIn_run_cases
    as [(before & x & after & bag & _ & _ & _ & Heq)
       |[(before & x & after & q & e & bag & _ & _ & _ & _ & Heq)
        |(_ & bag & Heq)]].
  - rewrite Heq. simpl. split; [split|].
    + intros [d Hd]. now apply resolutions_no_backend_call in Hd.
    + discriminate.
    + intros d Hd. now apply resolutions_no_backend_call in Hd.
  - rewrite Heq. simpl. split; [split|].
    + intros [d Hd]. now apply resolutions_no_backend_call in Hd.
    + discriminate.
    + intros d Hd. now apply resolutions_no_backend_call in Hd.
  - rewrite Heq.
    destruct (connect_and_authenticate_outcome
                {| idx := length (GetIdentifiers profile); tokenBag := bag;
                   calls := resolutions 0 (GetIdentifiers profile); resultEvent := None |})
      as [(code & _ & Heq')|[(code & _ & _ & Heq')|(_ & _ & Heq')]];
      rewrite Heq'; simpl; (split; [split|]).
    + intros [d Hd]. apply elem_of_app in Hd as [Hd|Hd].
      * now apply resolutions_no_backend_call in Hd.
      * apply list_elem_of_singleton in Hd. discriminate Hd.
    + discriminate.
    + intros d Hd. apply elem_of_app in Hd as [Hd|Hd].
      * now apply resolutions_no_backend_call in Hd.
      * apply list_elem_of_singleton in Hd. discriminate Hd.
    + intros [d Hd]. apply elem_of_app in Hd as [Hd|Hd].
      * now apply resolutions_no_backend_call in Hd.
      * rewrite !elem_of_cons, elem_of_nil in Hd. destruct Hd as [[=]|[[=]|[]]].
    + discriminate.
    + intros d Hd. apply elem_of_app in Hd as [Hd|Hd].
      * now apply resolutions_no_backend_call in Hd.
      * rewrite !elem_of_cons, elem_of_nil in Hd. destruct Hd as [[=]|[[=]|[]]].
    + reflexivity.
    + intros _. exists (UpdateStoredProfiles st). apply elem_of_app. right.
      right. right. left.
    + intros d Hd. apply elem_of_app in Hd as [Hd|Hd].
      * now apply resolutions_no_backend_call in Hd.
      * rewrite !elem_of_cons, elem_of_nil in Hd.
        destruct Hd as [[=]|[[=]|[[= ->]|[]]]]. reflexivity.
Qed.

(** X6. The backend is connected to only once every identifier of the
    profile has been resolved, and then the task completes. *)
Theorem SignIn_connects_after_resolution (uri : string) :
  CallConnectRemote uri ∈ calls SignIn_run →
  resolves 0 (GetIdentifiers profile)
  ∧ idx SignIn_run = length (GetIdentifiers profile)
  ∧ uri = "layer1://localhost:3036"
  ∧ is_Some SignIn.
Proof.
  unfold ProfileManager.SignIn.
  destruct SignIn_run_cases
    as [(before & x & after & bag & _ & _ & _ & Heq)
       |[(before & x & after & q & e & bag & _ & _ & _ & _ & Heq)
        |(Hres & bag & Heq)]].
  - rewrite Heq. simpl. intros Hc. now apply resolutions_no_backend_call in Hc.
  - rewrite Heq. simpl. intros Hc. now apply resolutions_no_backend_call in Hc.
  - rewrite Heq.
    destruct (connect_and_authenticate_outcome
                {| idx := length (GetIdentifiers profile); tokenBag := bag;
                   calls := resolutions 0 (GetIdentifiers profile); resultEvent := None |})
      as [(code & _ & Heq')|[(code & _ & _ & Heq')|(_ & _ & Heq')]];
      rewrite Heq'; simpl; intros Hc;
      (split; [exact Hres|]); (split; [reflexivity|]); (split; [|eauto]);
      apply elem_of_app in Hc as [Hc|Hc];
      try (now apply resolutions_no_backend_call in Hc);
      rewrite !elem_of_cons, elem_of_nil in Hc;
      repeat (destruct Hc as [Hc|Hc];
              [first [discriminate Hc | injection Hc as ->; reflexivity]|]);
      destruct Hc.
Qed.

End SignInOutcomes.

(** ** What loading and ingestion keep *)

Section StoreGrowth.

Variable target : arch.
Variable hash_value : ProfileIdentifier → Z.

Local Abbreviation fingerprint := (fingerprint target hash_value).
Local Abbreviation profile_of_entry := (profile_of_entry target hash_value).
Local Abbreviation ParseStoredProfiles_profile := (ParseStoredProfiles_profile target hash_value).
Local Abbreviation ParseStoredProfiles := (ParseStoredProfiles target hash_value).
Local Abbreviation Initialize_callback := (Initialize_callback target hash_value).
Local Abbreviation Initialize := (Initialize target hash_value).
Local Abbreviation suggested := (suggested target hash_value).
Local Abbreviation reachable := (reachable target hash_value).

Implicit Types (st : ProfileManagerImpl) (m : gmap Z ProfileImpl) (k : Z)
  (p profileImpl : ProfileImpl) (v : json).

(** One store extends another: the providers are the same, the enumeration
    is continued and no key is lost. *)
Lemma inserted_fold_grows (l : list ProfileImpl) st :
  m_identityProviders (fold_left (λ st profile, inserted profile st) l st)
  = m_identityProviders st
  ∧ dom (m_profiles st) ⊆ dom (m_profiles (fold_left (λ st profile, inserted profile st) l st)).
Proof.
  revert st. induction l as [|p l IH]; intros st; simpl.
  - split; reflexivity.
  - destruct (IH (inserted p st)) as [Hprov Hdom]. split; [exact Hprov|].
    etrans; [|exact Hdom]. simpl. rewrite dom_insert. apply union_subseteq_r.
Qed.

Lemma ParseStoredProfiles_only_appends_lemma (document : option json) st :
  m_identityProviders (ParseStoredProfiles document st) = m_identityProviders st
  ∧ m_profileIndices st `prefix_of` m_profileIndices (ParseStoredProfiles document st)
  ∧ dom (m_profiles st) ⊆ dom (m_profiles (ParseStoredProfiles document st)).
Proof.
  destruct (ParseStoredProfiles_cases target hash_value document st) as [Heq|[profiles Heq]];
    rewrite Heq.
  - split; [reflexivity|]. split; reflexivity.
  - rewrite inserted_fold_indices.
    destruct (inserted_fold_grows (omap profile_of_entry profiles) st) as [Hprov Hdom].
    split; [exact Hprov|]. split; [now apply prefix_app_r | exact Hdom].
Qed.

(** X7. A load never takes anything away: the identity providers stay, the
    enumeration is continued, so the profiles keep their positions, and
    every key of the store still has a profile.  A document that did not
    parse, is not an object, or has no array under ["profiles"] changes
    nothing at all. *)
Theorem ParseStoredProfiles_only_appends (document : option json) st :
  m_identityProviders (ParseStoredProfiles document st) = m_identityProviders st
  ∧ m_profileIndices st `prefix_of` m_profileIndices (ParseStoredProfiles document st)
  ∧ dom (m_profiles st) ⊆ dom (m_profiles (ParseStoredProfiles document st))
  ∧ (GetNumProfiles st ≤ GetNumProfiles (ParseStoredProfiles document st))%nat
  ∧ ((¬ ∃ d profiles, document = Some d ∧ FindMember "profiles" d = Some (JArray profiles)) →
     ParseStoredProfiles document st = st).
Proof.
  assert ((¬ ∃ d profiles, document = Some d ∧ FindMember "profiles" d = Some (JArray profiles)) →
          ParseStoredProfiles document st = st) as Hrejected.
  { intros Hno. unfold ProfileManager.ParseStoredProfiles.
    destruct document as [d|]; [|reflexivity].
    destruct (IsObject d); [|reflexivity].
    destruct (FindMember "profiles" d) as [[| | | |profiles|]|] eqn:Hm; try reflexivity.
    exfalso. apply Hno. exists d, profiles. auto. }
  destruct (ParseStoredProfiles_cases target hash_value document st) as [Heq|[profiles Heq]];
    rewrite Heq.
  - split; [reflexivity|]. split; [reflexivity|]. split; [reflexivity|].
    split; [reflexivity|]. now rewrite <- Heq.
  - unfold GetNumProfiles. rewrite inserted_fold_indices.
    destruct (inserted_fold_grows (omap profile_of_entry profiles) st) as [Hprov Hdom].
    split_and!.
    + exact Hprov.
    + now apply prefix_app_r.
    + exact Hdom.
    + rewrite length_app. lia.
    + now rewrite <- Heq.
Qed.

Lemma Initialize_callback_cases profileImpl st :
  ((∀ identifier, identifier ∈ GetIdentifiers profileImpl → ¬ held (m_profiles st) identifier)
   ∧ Initialize_callback profileImpl st
     = {| m_identityProviders := m_identityProviders st;
          m_profiles := <[fingerprint (GetIdentifiers profileImpl) := suggested profileImpl]>
                          (m_profiles st);
          m_profileIndices := m_profileIndices st ++ [fingerprint (GetIdentifiers profileImpl)] |})
  ∨ (∃ k p, m_profiles st !! k = Some p
       ∧ shares_identifier profileImpl p
       ∧ search (m_profiles st) (GetIdentifiers profileImpl) (false, None) = (true, Some k)
       ∧ Initialize_callback profileImpl st
         = {| m_identityProviders := m_identityProviders st;
              m_profiles := <[k := redisplayed profileImpl p]> (m_profiles st);
              m_profileIndices := m_profileIndices st |}).
Proof.
  destruct (search_outcome (m_profiles st) (GetIdentifiers profileImpl))
    as [[Hnone _] | (k & p & y & Hsearch & Hk & Hy & Hyp)].
  - left. split; [exact Hnone|]. now apply Initialize_callback_new.
  - right. exists k, p. split_and!; [exact Hk | exists y; auto | exact Hsearch |].
    now apply Initialize_callback_merge.
Qed.


(** X9. Ingesting a candidate never takes anything away: the identity
    providers stay, the enumeration is continued by at most one position,
    and every key of the store still has a profile. *)
Theorem Initialize_callback_only_appends profileImpl st :
  m_identityProviders (Initialize_callback profileImpl st) = m_identityProviders st
  ∧ m_profileIndices st `prefix_of` m_profileIndices (Initialize_callback profileImpl st)
  ∧ dom (m_profiles st) ⊆ dom (m_profiles (Initialize_callback profileImpl st))
  ∧ (GetNumProfiles st ≤ GetNumProfiles (Initialize_callback profileImpl st)
     ≤ S (GetNumProfiles st))%nat.
Proof.
  unfold GetNumProfiles.
  destruct (Initialize_callback_cases profileImpl st)
    as [[_ ->]|(k & p & _ & _ & _ & ->)]; simpl.
  - split_and!.
    + reflexivity.
    + now apply prefix_app_r.
    + rewrite dom_insert. apply union_subseteq_r.
    + rewrite length_app. simpl. lia.
    + rewrite length_app. simpl. lia.
  - split_and!.
    + reflexivity.
    + reflexivity.
    + rewrite dom_insert. apply union_subseteq_r.
    + lia.
    + lia.
Qed.

(** X10. The display name and tile URI of an ingested candidate always end
    up on a stored profile: on the candidate itself when it is inserted, and
    otherwise on a stored profile that shares an identifier with it. *)
Theorem ingested_display_data_is_stored profileImpl st :
  ∃ k p, m_profiles (Initialize_callback profileImpl st) !! k = Some p
    ∧ GetDisplayName p = GetDisplayName profileImpl
    ∧ GetTileURI p = GetTileURI profileImpl
    ∧ (GetIdentifiers p = GetIdentifiers profileImpl ∨ shares_identifier profileImpl p).
Proof.
  destruct (Initialize_callback_cases profileImpl st)
    as [[_ ->]|(k & p & _ & Hshare & _ & ->)]; simpl.
  - exists (fingerprint (GetIdentifiers profileImpl)), (suggested profileImpl).
    rewrite lookup_insert_eq. auto.
  - exists k, (redisplayed profileImpl p). rewrite lookup_insert_eq. auto.
Qed.

(** X11. In every state the manager reaches, each position below
    [GetNumProfiles] gives a profile; the profile carries the key enumerated
    at that position, the key is the fingerprint of its identifiers, and it
    fits in 32 bits. *)
Theorem GetProfile_in_range st (index : nat) :
  reachable st →
  (index < GetNumProfiles st)%nat →
  ∃ p, GetProfile st index = Some p
    ∧ m_profileIndices st !! index = Some (GetInternalIdentifier p)
    ∧ GetInternalIdentifier p = fingerprint (GetIdentifiers p)
    ∧ 0 ≤ GetInternalIdentifier p < 2 ^ 32.
Proof.
  intros Hst Hindex. destruct (reachable_consistent target hash_value st Hst) as [Hkeys Hidx].
  unfold GetNumProfiles in Hindex. apply lookup_lt_is_Some in Hindex as [k Hk].
  assert (is_Some (m_profiles st !! k)) as [p Hp].
  { apply Hidx. now apply list_elem_of_lookup_2 in Hk. }
  destruct (Hkeys _ _ Hp) as [Hfp Hid]. exists p. unfold GetProfile. rewrite Hk. simpl.
  split_and!; [exact Hp | now rewrite Hid | congruence | |];
    rewrite Hid, Hfp; apply fingerprint_range.
Qed.

End StoreGrowth.


(** ** Ingesting a candidate again *)

Section Reingestion.

Variable target : arch.
Variable hash_value : ProfileIdentifier → Z.

Local Abbreviation fingerprint := (fingerprint target hash_value).
Local Abbreviation Initialize_callback := (Initialize_callback target hash_value).
Local Abbreviation suggested := (suggested target hash_value).

Implicit Types (st : ProfileManagerImpl) (m : gmap Z ProfileImpl) (k : Z)
  (p q profileImpl : ProfileImpl).

(** The search looks at keys and identifiers only. *)
Lemma search_replace_same_identifiers m k p q (identifiers : list ProfileIdentifier)
    (ms : match_state) :
  m !! k = Some p →
  GetIdentifiers q = GetIdentifiers p →
  search (<[k := q]> m) identifiers ms = search m identifiers ms.
Proof.
  intros Hk Hids. unfold search. rewrite (map_iter_replace m k p q Hk).
  revert ms. induction identifiers as [|identifier identifiers IH]; intros ms; simpl.
  - reflexivity.
  - rewrite IH. f_equal. apply scan_profiles_same_identifiers.
    apply Forall2_fmap_l, Forall_Forall2_diag, Forall_forall. intros [k' p'] Hin. simpl.
    case_decide as Hkk; simpl; [|auto]. subst k'.
    apply elem_of_map_iter in Hin. split; congruence.
Qed.

Lemma redisplayed_suggested profileImpl :
  redisplayed profileImpl (suggested profileImpl) = suggested profileImpl.
Proof. reflexivity. Qed.

Lemma redisplayed_twice profileImpl p :
  redisplayed profileImpl (redisplayed profileImpl p) = redisplayed profileImpl p.
Proof. reflexivity. Qed.

(** X12. Handing the callback a candidate a second time changes nothing,
    provided the candidate has an identifier: the second time it is matched
    with the profile it was stored as, or merged into, the first time. *)
Theorem reingestion_changes_nothing profileImpl st :
  GetIdentifiers profileImpl ≠ [] →
  Initialize_callback profileImpl (Initialize_callback profileImpl st)
  = Initialize_callback profileImpl st.
Proof.
  intros Hids.
  destruct (Initialize_callback_cases target hash_value profileImpl st)
    as [[Hnone Heq]|(k & p & Hk & Hshare & Hsearch & Heq)]; rewrite Heq.
  - set (h := fingerprint (GetIdentifiers profileImpl)).
    set (st1 := {| m_identityProviders := m_identityProviders st;
                   m_profiles := <[h := suggested profileImpl]> (m_profiles st);
                   m_profileIndices := m_profileIndices st ++ [h] |}).
    destruct (search_outcome (m_profiles st1) (GetIdentifiers profileImpl))
      as [[Hnone1 _] | (k' & p' & y & Hsearch1 & Hk' & Hy & Hyp)].
    + exfalso. destruct (GetIdentifiers profileImpl) as [|x ids] eqn:Hx; [contradiction|].
      apply (Hnone1 x); [left|]. exists h, (suggested profileImpl). split.
      * subst st1. simpl. apply lookup_insert_eq.
      * simpl. rewrite Hx. left.
    + assert (k' = h ∧ p' = suggested profileImpl) as [-> ->].
      { subst st1. simpl in Hk'. rewrite lookup_insert in Hk'. case_decide as Hkk.
        - injection Hk' as <-. auto.
        - exfalso. apply (Hnone y Hy). exists k', p'. auto. }
      rewrite (Initialize_callback_merge target hash_value st1 profileImpl h
                 (suggested profileImpl) Hsearch1 Hk').
      subst st1. simpl. now rewrite redisplayed_suggested, insert_insert_eq.
  - set (st1 := {| m_identityProviders := m_identityProviders st;
                   m_profiles := <[k := redisplayed profileImpl p]> (m_profiles st);
                   m_profileIndices := m_profileIndices st |}).
    assert (search (m_profiles st1) (GetIdentifiers profileImpl) (false, None) = (true, Some k))
      as Hsearch1.
    { subst st1. simpl. now rewrite (search_replace_same_identifiers _ _ p). }
    assert (m_profiles st1 !! k = Some (redisplayed profileImpl p)) as Hk1.
    { subst st1. simpl. apply lookup_insert_eq. }
    rewrite (Initialize_callback_merge target hash_value st1 profileImpl k _ Hsearch1 Hk1).
    subst st1. simpl. now rewrite redisplayed_twice, insert_insert_eq.
Qed.

(** A candidate without identifiers is never matched: each time it is handed
    to the callback it takes one more position, under the key 0. *)
Lemma Initialize_callback_no_identifiers profileImpl st :
  GetIdentifiers profileImpl = [] →
  m_profileIndices (Initialize_callback profileImpl st) = m_profileIndices st ++ [0].
Proof.
  intros Hids. rewrite Initialize_callback_new.
  - simpl. now rewrite Hids.
  - rewrite Hids. intros x Hx. now apply elem_of_nil in Hx.
Qed.

End Reingestion.

(** ** The saved document and the store loaded from it *)

Section Reload.

Variable target : arch.
Variable hash_value : ProfileIdentifier → Z.

Local Abbreviation fingerprint := (fingerprint target hash_value).
Local Abbreviation profile_of_entry := (profile_of_entry target hash_value).
Local Abbreviation ParseStoredProfiles_profile := (ParseStoredProfiles_profile target hash_value).
Local Abbreviation ParseStoredProfiles := (ParseStoredProfiles target hash_value).
Local Abbreviation Initialize_callback := (Initialize_callback target hash_value).
Local Abbreviation Initialize := (Initialize target hash_value).
Local Abbreviation consistent := (consistent target hash_value).
Local Abbreviation reachable := (reachable target hash_value).
Local Abbreviation reloaded := (reloaded target hash_value).

Implicit Types (st : ProfileManagerImpl) (m : gmap Z ProfileImpl) (k : Z)
  (p q profileImpl : ProfileImpl) (v : json).

Lemma inserted_fold_lookup (l : list ProfileImpl) st k p :
  m_profiles (fold_left (λ st profile, inserted profile st) l st) !! k = Some p →
  p ∈ l ∨ m_profiles st !! k = Some p.
Proof.
  revert st. induction l as [|q l IH]; intros st; simpl; [auto|].
  intros Hk. apply IH in Hk as [Hin|Hk]; [left; now right|].
  simpl in Hk. rewrite lookup_insert in Hk. case_decide.
  - injection Hk as <-. left. left.
  - now right.
Qed.

(** A store that was loaded from a saved document holds no NUL in its
    identifiers. *)
Lemma reloaded_nul_free st : nul_free_identifiers (reloaded st).
Proof.
  intros k p identifier Hk Hid.
  rewrite (reloaded_fold target hash_value) in Hk.
  apply inserted_fold_lookup in Hk as [Hin|Hk].
  - apply list_elem_of_fmap in Hin as ([k0 p0] & -> & _). simpl in Hid.
    now apply (cut_identifiers_nul_free (GetIdentifiers p0)).
  - simpl in Hk. now rewrite lookup_empty in Hk.
Qed.

(** X14. A store without a NUL in its identifiers that was loaded from its
    own saved document is a fixed point of saving and loading: doing it
    again gives the same manager, profiles and enumeration alike.  Whatever
    the store, it is one after the second load. *)
Theorem reload_twice st :
  (reachable st → nul_free_identifiers st → reloaded (reloaded st) = reloaded st)
  ∧ reloaded (reloaded (reloaded st)) = reloaded (reloaded st).
Proof.
  assert (∀ st', consistent st' → nul_free_identifiers st' →
            reloaded (reloaded st') = reloaded st') as Hfix.
  { intros st' Hcons Hnul.
    assert (consistent (reloaded st')) as Hcons'.
    { apply consistent_parse, consistent_new. }
    rewrite (reloaded_store target hash_value (reloaded st') Hcons' (reloaded_nul_free st')).
    rewrite (reloaded_store target hash_value st' Hcons Hnul). simpl.
    apply ProfileManagerImpl_eq; simpl.
    - reflexivity.
    - rewrite <- map_fmap_compose. apply map_fmap_ext. intros k p _. reflexivity.
    - apply map_iter_keys_dom. apply dom_fmap_L. }
  split.
  - intros Hst Hnul. apply Hfix; [now apply reachable_consistent | exact Hnul].
  - apply Hfix; [apply consistent_parse, consistent_new | apply reloaded_nul_free].
Qed.

Lemma existsb_malformed_pair (identifiers : list ProfileIdentifier) :
  existsb malformed_pair (identifier_value <$> identifiers) = false.
Proof. induction identifiers as [|[key value] identifiers IH]; [reflexivity | exact IH]. Qed.

(** X15. Whatever the manager holds, the document it saves is an object
    whose ["profiles"] member is an array with one entry per stored profile,
    in ascending order of the key, and every entry is well formed, its
    identifier pairs included: the loader skips none of them. *)
Theorem saved_document_is_well_formed st :
  IsObject (UpdateStoredProfiles st) = true
  ∧ ∃ entries,
      FindMember "profiles" (UpdateStoredProfiles st) = Some (JArray entries)
      ∧ entries = (λ kp : Z * ProfileImpl, profile_data kp.2) <$> map_iter (m_profiles st)
      ∧ length entries = size (m_profiles st)
      ∧ (∀ v, v ∈ entries → malformed_entry_strict v = false ∧ is_Some (profile_of_entry v))
      ∧ GetNumProfiles (reloaded st) = size (m_profiles st).
Proof.
  split; [reflexivity|].
  exists ((λ kp : Z * ProfileImpl, profile_data kp.2) <$> map_iter (m_profiles st)).
  split_and!.
  - reflexivity.
  - reflexivity.
  - now rewrite length_fmap, map_iter_length.
  - intros v Hv. apply list_elem_of_fmap in Hv as ([k p] & -> & _). cbn [snd]. split.
    + apply existsb_malformed_pair.
    + rewrite profile_of_entry_data. eauto.
  - rewrite reloaded_fold. unfold GetNumProfiles. rewrite inserted_fold_indices. simpl.
    now rewrite !length_fmap, map_iter_length.
Qed.

End Reload.

(** ** Loading, start-up and registration *)

Section LoadAndInitialize.

Variable target : arch.
Variable hash_value : ProfileIdentifier → Z.

Local Abbreviation fingerprint := (fingerprint target hash_value).
Local Abbreviation profile_of_entry := (profile_of_entry target hash_value).
Local Abbreviation ParseStoredProfiles_profile := (ParseStoredProfiles_profile target hash_value).
Local Abbreviation ParseStoredProfiles := (ParseStoredProfiles target hash_value).
Local Abbreviation LoadStoredProfiles := (LoadStoredProfiles target hash_value).
Local Abbreviation Initialize_callback := (Initialize_callback target hash_value).
Local Abbreviation Initialize := (Initialize target hash_value).
Local Abbreviation suggestion_scan := (suggestion_scan target hash_value).
Local Abbreviation reachable := (reachable target hash_value).

Implicit Types (st : ProfileManagerImpl) (m : gmap Z ProfileImpl) (k : Z)
  (p q profileImpl : ProfileImpl) (v : json).

Lemma inserted_fold_lookup_ne (l : list ProfileImpl) st k :
  (∀ q, q ∈ l → GetInternalIdentifier q ≠ k) →
  m_profiles (fold_left (λ st profile, inserted profile st) l st) !! k = m_profiles st !! k.
Proof.
  revert st. induction l as [|q l IH]; intros st Hne; simpl; [reflexivity|].
  rewrite IH by (intros q' Hq'; apply Hne; now right).
  simpl. apply lookup_insert_ne. apply Hne. left.
Qed.

(** X16. Entries of a document are not merged with each other.  Each
    well-formed entry takes a position of its own in the enumeration, and
    where several have the same fingerprint it is the last of them that the
    store keeps: its key, its own position and the positions of the earlier
    entries of that fingerprint all give the last one. *)
Theorem load_last_entry_wins (document : json) (profiles : list json) st
    (l1 l2 : list ProfileImpl) p :
  FindMember "profiles" document = Some (JArray profiles) →
  omap profile_of_entry profiles = l1 ++ p :: l2 →
  (∀ q, q ∈ l2 → GetInternalIdentifier q ≠ GetInternalIdentifier p) →
  m_profiles (ParseStoredProfiles (Some document) st) !! GetInternalIdentifier p = Some p
  ∧ GetProfile (ParseStoredProfiles (Some document) st) (GetNumProfiles st + length l1) = Some p
  ∧ (∀ i q, l1 !! i = Some q → GetInternalIdentifier q = GetInternalIdentifier p →
       GetProfile (ParseStoredProfiles (Some document) st) (GetNumProfiles st + i) = Some p)
  ∧ GetNumProfiles (ParseStoredProfiles (Some document) st)
    = (GetNumProfiles st + length l1 + 1 + length l2)%nat.
Proof.
  intros Hmember Hsplit Hlast.
  assert (ParseStoredProfiles (Some document) st
          = fold_left (λ st profile, inserted profile st) (l1 ++ p :: l2) st) as Hload.
  { unfold ProfileManager.ParseStoredProfiles. destruct document; try discriminate Hmember.
    simpl. simpl in Hmember. rewrite Hmember. simpl. rewrite <- Hsplit.
    apply ParseStoredProfiles_profiles_fold. }
  assert (m_profiles (ParseStoredProfiles (Some document) st) !! GetInternalIdentifier p
          = Some p) as Hkey.
  { rewrite Hload, fold_left_app. simpl. rewrite inserted_fold_lookup_ne by exact Hlast.
    simpl. apply lookup_insert_eq. }
  assert (m_profileIndices (ParseStoredProfiles (Some document) st)
          = m_profileIndices st ++ (GetInternalIdentifier <$> l1)
            ++ GetInternalIdentifier p :: (GetInternalIdentifier <$> l2)) as Hindices.
  { rewrite Hload, inserted_fold_indices, fmap_app. reflexivity. }
  unfold GetProfile, GetNumProfiles. rewrite Hindices. split_and!.
  - exact Hkey.
  - rewrite lookup_app_r by lia. rewrite lookup_app_r by (rewrite length_fmap; lia).
    replace (length (m_profileIndices st) + length l1 - length (m_profileIndices st)
             - length (GetInternalIdentifier <$> l1))%nat with 0%nat
      by (rewrite length_fmap; lia).
    simpl. exact Hkey.
  - intros i q Hi Hq. rewrite lookup_app_r by lia.
    rewrite lookup_app_l by (rewrite length_fmap; apply lookup_lt_Some in Hi; lia).
    replace (length (m_profileIndices st) + i - length (m_profileIndices st))%nat with i by lia.
    rewrite list_lookup_fmap, Hi. simpl. rewrite Hq. exact Hkey.
  - rewrite !length_app. simpl. rewrite !length_fmap. lia.
Qed.

(** X17. An identifier listed twice in a profile adds nothing to its
    fingerprint, in the callback as in the loader: the key is the one the
    profile would have without the two occurrences.  The loader compares
    what it reads, each string up to its first NUL. *)
Theorem duplicate_identifier_cancels m (identifier : ProfileIdentifier)
    (identifiers : list ProfileIdentifier) (name uri key value : string)
    (pairs : list json) st :
  Z.land (suggestion_scan m (identifier :: identifier :: identifiers)).2 UINT32_MAX
  = Z.land (suggestion_scan m identifiers).2 UINT32_MAX
  ∧ ParseStoredProfiles_profile st
      (JObject [("displayName", JString name); ("tileUri", JString uri);
                ("identifiers", JArray (JArray [JString key; JString value]
                                        :: JArray [JString key; JString value] :: pairs))])
    = inserted {| GetDisplayName := name; GetTileURI := uri;
                  GetIdentifiers := (c_str key, c_str value) :: (c_str key, c_str value)
                                    :: omap identifier_of_pair pairs;
                  IsSuggestion := false;
                  GetInternalIdentifier := fingerprint (omap identifier_of_pair pairs) |} st.
Proof.
  rewrite !(suggestion_scan_hashKey target hash_value). split.
  - apply fingerprint_duplicate.
  - rewrite ParseStoredProfiles_profile_spec. simpl.
    now rewrite (fingerprint_duplicate target hash_value).
Qed.

Lemma Initialize_callback_fold_grows (candidates : list ProfileImpl) st :
  let st' := fold_left (λ st profile, Initialize_callback profile st) candidates st in
  m_identityProviders st' = m_identityProviders st
  ∧ m_profileIndices st `prefix_of` m_profileIndices st'
  ∧ dom (m_profiles st) ⊆ dom (m_profiles st')
  ∧ (GetNumProfiles st' ≤ GetNumProfiles st + length candidates)%nat
  ∧ (reachable st → reachable st').
Proof.
  revert st. induction candidates as [|c candidates IH]; intros st; simpl.
  - split_and!; try reflexivity; [lia | auto].
  - destruct (IH (Initialize_callback c st)) as (Hprov & Hidx & Hdom & Hnum & Hreach).
    assert (m_identityProviders (Initialize_callback c st) = m_identityProviders st
            ∧ m_profileIndices st `prefix_of` m_profileIndices (Initialize_callback c st)
            ∧ dom (m_profiles st) ⊆ dom (m_profiles (Initialize_callback c st))
            ∧ (GetNumProfiles (Initialize_callback c st) ≤ S (GetNumProfiles st))%nat)
      as (Hprov1 & Hidx1 & Hdom1 & Hnum1).
    { unfold GetNumProfiles.
      destruct (Initialize_callback_cases target hash_value c st)
        as [[_ ->]|(k & p & _ & _ & _ & ->)]; simpl.
      - split; [reflexivity|]. split; [now apply prefix_app_r|].
        split; [rewrite dom_insert; apply union_subseteq_r|].
        rewrite length_app. simpl. lia.
      - split; [reflexivity|]. split; [reflexivity|].
        split; [rewrite dom_insert; apply union_subseteq_r | lia]. }
    split_and!.
    + congruence.
    + etrans; eassumption.
    + etrans; eassumption.
    + lia.
    + intros Hst. apply Hreach. now apply reachable_suggestion.
Qed.


End LoadAndInitialize.

(** ** Registration of identity providers *)

Section Registration.

Variable client : IClient.
Variable profile : ProfileImpl.
Variable parameters : gmap string string.

Implicit Types (st : ProfileManagerImpl) (provider : ProfileIdentityProvider).

(** A chain whose identifiers all have a provider sets the result. *)
Lemma SignIn_completes_when_registered st :
  (∀ identifier, identifier ∈ GetIdentifiers profile →
     is_Some (m_identityProviders st !! identifier.1)) →
  is_Some (SignIn client st profile parameters).
Proof.
  intros Hall. unfold SignIn.
  destruct (SignIn_run_cases client st profile parameters)
    as [(before & x & after & bag & Hids & _ & Hx & _)
       |[(before & x & after & q & e & bag & _ & _ & _ & _ & Heq)
        |(_ & bag & Heq)]].
  - exfalso. destruct (Hall x) as [q Hq]; [|congruence].
    rewrite Hids. apply elem_of_app. right. left.
  - rewrite Heq. simpl. eauto.
  - rewrite Heq.
    destruct (connect_and_authenticate_outcome client st
                {| idx := length (GetIdentifiers profile); tokenBag := bag;
                   calls := resolutions 0 (GetIdentifiers profile); resultEvent := None |})
      as [(code & _ & Heq')|[(code & _ & _ & Heq')|(_ & _ & Heq')]];
      rewrite Heq'; simpl; eauto.
Qed.

(** X19. Registering a provider puts it under its own key and touches
    nothing else: a provider registered earlier under the same key is
    replaced, the profiles and their enumeration stay, and a sign-in over a
    profile whose identifiers all carry that key then completes. *)
Theorem AddIdentityProvider_registers provider st :
  m_identityProviders (AddIdentityProvider provider st) !! GetIdentifierKey provider
    = Some provider
  ∧ (∀ key, key ≠ GetIdentifierKey provider →
       m_identityProviders (AddIdentityProvider provider st) !! key
       = m_identityProviders st !! key)
  ∧ (∀ earlier, GetIdentifierKey earlier = GetIdentifierKey provider →
       AddIdentityProvider provider (AddIdentityProvider earlier st)
       = AddIdentityProvider provider st)
  ∧ m_profiles (AddIdentityProvider provider st) = m_profiles st
  ∧ m_profileIndices (AddIdentityProvider provider st) = m_profileIndices st
  ∧ ((∀ identifier, identifier ∈ GetIdentifiers profile →
        identifier.1 = GetIdentifierKey provider) →
     is_Some (SignIn client (AddIdentityProvider provider st) profile parameters)).
Proof.
  split_and!.
  - simpl. apply lookup_insert_eq.
  - intros key Hkey. simpl. now apply lookup_insert_ne.
  - intros earlier Hkey. unfold AddIdentityProvider. simpl.
    now rewrite Hkey, insert_insert_eq.
  - reflexivity.
  - reflexivity.
  - intros Hkeys. apply SignIn_completes_when_registered. intros identifier Hin.
    rewrite (Hkeys identifier Hin). simpl. rewrite lookup_insert_eq. eauto.
Qed.

End Registration.

(** ** The further properties at concrete inputs *)

Lemma steam_profile_resolves :
  resolves steam_manager steam_profile ∅ 0 (GetIdentifiers steam_profile).
Proof.
  intros j identifier Hj. destruct j as [|j]; [|discriminate Hj].
  injection Hj as <-. exists steam_provider, "bearer", "abc123".
  split; [vm_compute; reflexivity | reflexivity].
Defined.

Lemma SignIn_succeeds_witness :
  (resolves steam_manager steam_profile ∅ 0 (GetIdentifiers steam_profile)
   ∧ ConnectRemote willing_client "layer1://localhost:3036" = Succeeded
   ∧ AuthenticateWithTokenBag willing_client
       (tokenBag (SignIn_run willing_client steam_manager steam_profile ∅)) = Succeeded)
  ∧ SignIn willing_client steam_manager steam_profile ∅ = Some (ProfileTaskResult_flag true).
Proof.
  split; [split; [apply steam_profile_resolves | split; reflexivity]|].
  exact (proj1 (SignIn_succeeds willing_client steam_manager steam_profile ∅
                  steam_profile_resolves eq_refl eq_refl)).
Defined.

Lemma SignIn_connect_refused_witness :
  (resolves steam_manager steam_profile ∅ 0 (GetIdentifiers steam_profile)
   ∧ ConnectRemote refusing_client "layer1://localhost:3036" = Error 7)
  ∧ SignIn refusing_client steam_manager steam_profile ∅
    = Some (ProfileTaskResult_error false "Connecting to Terminal failed - error code 7.")
  ∧ calls (SignIn_run refusing_client steam_manager steam_profile ∅)
    = [CallProcessIdentity "steam" 0; CallConnectRemote "layer1://localhost:3036"].
Proof.
  split; [split; [apply steam_profile_resolves | reflexivity]|].
  exact (SignIn_connect_refused refusing_client steam_manager steam_profile ∅ 7
           steam_profile_resolves eq_refl).
Defined.

Lemma SignIn_authentication_rejected_witness :
  (resolves steam_manager steam_profile ∅ 0 (GetIdentifiers steam_profile)
   ∧ ConnectRemote rejecting_client "layer1://localhost:3036" = Succeeded
   ∧ AuthenticateWithTokenBag rejecting_client
       (tokenBag (SignIn_run rejecting_client steam_manager steam_profile ∅)) = Error 3)
  ∧ SignIn rejecting_client steam_manager steam_profile ∅
    = Some (ProfileTaskResult_error false "Authenticating to Terminal failed - error code 3.").
Proof.
  split; [split; [apply steam_profile_resolves | split; reflexivity]|].
  exact (proj1 (SignIn_authentication_rejected rejecting_client steam_manager steam_profile ∅ 3
                  steam_profile_resolves eq_refl eq_refl)).
Defined.

Lemma SignIn_connects_after_resolution_witness :
  CallConnectRemote "layer1://localhost:3036"
    ∈ calls (SignIn_run refusing_client steam_manager steam_profile ∅)
  ∧ idx (SignIn_run refusing_client steam_manager steam_profile ∅)
    = length (GetIdentifiers steam_profile).
Proof.
  assert (CallConnectRemote "layer1://localhost:3036"
            ∈ calls (SignIn_run refusing_client steam_manager steam_profile ∅)) as Hcall.
  { right. left. }
  split; [exact Hcall|].
  exact (proj1 (proj2 (SignIn_connects_after_resolution refusing_client steam_manager
                         steam_profile ∅ "layer1://localhost:3036" Hcall))).
Defined.

Lemma candidate_D_not_held (identifier : ProfileIdentifier) :
  identifier ∈ GetIdentifiers candidate_D → ¬ held (m_profiles three_profile_store) identifier.
Proof.
  intros Hin (k & p & Hk & Hheld). apply list_elem_of_singleton in Hin as ->.
  apply three_profile_store_lookup in Hk as [[-> ->]|[[-> ->]|[-> ->]]];
    apply list_elem_of_singleton in Hheld; discriminate Hheld.
Defined.


Lemma GetProfile_in_range_witness :
  (reachable X64 example_hash three_profile_store
   ∧ (1 < GetNumProfiles three_profile_store)%nat)
  ∧ is_Some (GetProfile three_profile_store 1).
Proof.
  assert (1 < GetNumProfiles three_profile_store)%nat as Hlt by (vm_compute; lia).
  split; [split; [apply three_profile_store_reachable | exact Hlt]|].
  destruct (GetProfile_in_range X64 example_hash three_profile_store 1
              three_profile_store_reachable Hlt) as (p & Hp & _).
  exists p. exact Hp.
Defined.

Lemma reingestion_changes_nothing_witness :
  GetIdentifiers candidate_AC ≠ []
  ∧ Initialize_callback X64 example_hash candidate_AC
      (Initialize_callback X64 example_hash candidate_AC three_profile_store)
    = Initialize_callback X64 example_hash candidate_AC three_profile_store.
Proof.
  assert (GetIdentifiers candidate_AC ≠ []) as Hne by discriminate.
  split; [exact Hne|].
  exact (reingestion_changes_nothing X64 example_hash candidate_AC three_profile_store Hne).
Defined.

Lemma reload_twice_witness :
  (reachable X64 example_hash four_profile_store
   ∧ nul_free_identifiers four_profile_store)
  ∧ reloaded X64 example_hash (reloaded X64 example_hash four_profile_store)
    = reloaded X64 example_hash four_profile_store
  ∧ m_profileIndices (reloaded X64 example_hash four_profile_store)
    = [700960781; 1620722314; 2517154623; 2519807026].
Proof.
  split; [split; [apply four_profile_store_reachable | apply four_profile_store_nul_free]|].
  split.
  - exact (proj1 (reload_twice X64 example_hash four_profile_store)
             four_profile_store_reachable four_profile_store_nul_free).
  - vm_compute. reflexivity.
Defined.

(** Two suggestions whose identifier keys differ after a NUL only: the
    first load enumerates one key twice, the second load once, and from
    then on nothing changes. *)
Example reload_of_colliding_identifiers :
  let st := Initialize_callback X64 example_hash (candidate "M" "tile-m" [("a", "1")])
              (Initialize_callback X64 example_hash candidate_with_nul
                 new_ProfileManagerImpl) in
  m_profileIndices st = [3083256587; 1416505845]
  ∧ m_profileIndices (reloaded X64 example_hash st) = [1416505845; 1416505845]
  ∧ m_profileIndices (reloaded X64 example_hash (reloaded X64 example_hash st)) = [1416505845]
  ∧ reloaded X64 example_hash (reloaded X64 example_hash (reloaded X64 example_hash st))
    = reloaded X64 example_hash (reloaded X64 example_hash st).
Proof.
  intros st. do 3 (split; [vm_compute; reflexivity|]).
  apply ProfileManagerImpl_eq; vm_compute; reflexivity.
Qed.

Lemma load_last_entry_wins_witness :
  let st := ParseStoredProfiles X64 example_hash (Some nul_twice_document)
              new_ProfileManagerImpl in
  (FindMember "profiles" nul_twice_document = Some (JArray nul_twice_profiles)
   ∧ omap (profile_of_entry X64 example_hash) nul_twice_profiles
     = [profile_N] ++ profile_M :: [])
  ∧ GetNumProfiles st = 2%nat
  ∧ m_profileIndices st = [1416505845; 1416505845]
  ∧ GetProfile st 0 = Some profile_M
  ∧ GetProfile st 1 = Some profile_M.
Proof.
  intros st.
  assert (omap (profile_of_entry X64 example_hash) nul_twice_profiles
          = [profile_N] ++ profile_M :: []) as Hsplit
    by (vm_compute; reflexivity).
  assert (∀ q, q ∈ @nil ProfileImpl →
            GetInternalIdentifier q ≠ GetInternalIdentifier profile_M) as Hlast.
  { intros q Hq. now apply elem_of_nil in Hq. }
  split; [split; [reflexivity | exact Hsplit]|].
  destruct (load_last_entry_wins X64 example_hash nul_twice_document nul_twice_profiles
              new_ProfileManagerImpl [profile_N] [] profile_M
              eq_refl Hsplit Hlast) as (_ & Hown & Hearlier & Hnum).
  split; [exact Hnum|]. split; [vm_compute; reflexivity|]. split.
  - exact (Hearlier 0%nat profile_N eq_refl eq_refl).
  - exact Hown.
Defined.
